(** * simpleforce: the bulk-job client (bulk.go)

    A shallow embedding of [bulk.go]: the job state model, the Salesforce
    timestamp codec, the status poller and the result-set fetcher, with the
    properties of the bulk-job specification stated over them.

    Conventions.
    - Go [string] and [[]byte] values are [string] (a sequence of bytes).
    - Go [int], [int64] and [time.Duration] values are [Z]; the places where
      the 64-bit range matters (strconv.Atoi, leadingInt) write it out.
    - A Go [error] is [option error]: [None] is [nil].
    - A Go [(T, error)] result is [result T].
    - A call that can end without returning (a run-time panic, a fatal
      error of the runtime) has an [outcome]: [GetResultSet], which sizes
      its buffer from the declared content length.
    - The collaborators that live outside bulk.go (the [Client] with its
      transport, the request context, the JSON decoder) are parameters; the
      network and the clock are observed through a trace of events. *)

From Stdlib Require Import ZArith Lia List Bool Ascii String.
From stdpp Require Import base option gmap strings.
Import ListNotations.

Local Open Scope string_scope.
Local Open Scope Z_scope.
Local Set Warnings "-register-all".

(** ** Errors *)

(** [context.Canceled] and [context.DeadlineExceeded], the two values
    [ctx.Err()] can return once [ctx.Done()] is closed. *)
Inductive ctxErr : Type :=
| Canceled
| DeadlineExceeded.

(** [*time.ParseError]. *)
Record ParseError : Type := newParseError {
  Layout : string;
  Value : string;
  LayoutElem : string;
  ValueElem : string;
  Message : string
}.

(** The error values bulk.go can return. *)
Inductive error : Type :=
| errorString (msg : string)        (* fmt.Errorf without a wrapping verb *)
| timeParseError (e : ParseError)   (* returned by time.Parse *)
| contextError (e : ctxErr)         (* returned by ctx.Err() *)
| externalError (msg : string)      (* transport, JSON and Salesforce errors *)
| joinError (errs : list error).    (* errors.Join *)

Inductive result (A : Type) : Type :=
| Ok (a : A)
| Err (e : error).
Arguments Ok {A} a.
Arguments Err {A} e.

(** How a call ends: it returns, or a run-time panic unwinds it, or the
    runtime stops the process (a fatal error, which nothing recovers). *)
Inductive outcome (A : Type) : Type :=
| Returns (a : A)
| Panics (msg : string)
| Dies (msg : string).
Arguments Returns {A} a.
Arguments Panics {A} msg.
Arguments Dies {A} msg.

(** ** Job state model *)

(** [type JobStateEnum string]: any string is a value of the type; the five
    constants are the states the platform documents. *)
Definition JobStateEnum : Type := string.

Definition UploadComplete : JobStateEnum := "UploadComplete".
Definition InProgress : JobStateEnum := "InProgress".
Definition Aborted : JobStateEnum := "Aborted".
Definition JobComplete : JobStateEnum := "JobComplete".
Definition Failed : JobStateEnum := "Failed".

Definition IsFinished (j : JobStateEnum) : bool :=
  String.eqb j JobComplete || String.eqb j Failed || String.eqb j Aborted.

Definition ToError (j : JobStateEnum) : option error :=
  if String.eqb j Aborted then Some (errorString "job aborted")
  else if String.eqb j Failed then Some (errorString "job failed")
  else None.

(** ** Bytes and slices *)

(** The double quote character (byte 34). *)
Definition dquote : ascii := "034"%char.

Definition byteval (c : ascii) : Z := Z.of_N (N_of_ascii c).

(** [s[n:]] and [s[:n]]; the callers check the length first. *)
Fixpoint sliceFrom (n : nat) (s : string) : string :=
  match n, s with
  | O, _ => s
  | S _, EmptyString => EmptyString
  | S n', String _ s' => sliceFrom n' s'
  end.

Fixpoint sliceTo (n : nat) (s : string) : string :=
  match n, s with
  | O, _ => EmptyString
  | S _, EmptyString => EmptyString
  | S n', String c s' => String c (sliceTo n' s')
  end.

Definition len (s : string) : Z := Z.of_nat (String.length s).

Definition isDigitByte (c : ascii) : bool :=
  (48 <=? byteval c) && (byteval c <=? 57).

(** time.isDigit: is [s[i]] in range and a decimal digit. *)
Definition isDigit (s : string) (i : nat) : bool :=
  match String.get i s with
  | Some c => isDigitByte c
  | None => false
  end.

Definition commaOrPeriod (c : ascii) : bool :=
  Ascii.eqb c "." || Ascii.eqb c ",".

(** ** The time package *)

Module GoTime.

(** *** Numbers (time/format.go) *)

(** time.leadingInt: the leading run of digits as a uint64, and the rest;
    [None] is errLeadingInt (overflow past 1<<63). *)
Fixpoint leadingInt (s : string) (x : Z) : option (Z * string) :=
  match s with
  | EmptyString => Some (x, s)
  | String c s' =>
      if negb (isDigitByte c) then Some (x, s)
      else if 2 ^ 63 / 10 <? x then None
      else
        let x' := x * 10 + byteval c - 48 in
        if 2 ^ 63 <? x' then None else leadingInt s' x'
  end.

(** time.atoi: optional sign, then digits only; [None] is errAtoi. *)
Definition atoi (s : string) : option Z :=
  let '(neg, s1) :=
    match s with
    | String c s' =>
        if Ascii.eqb c "-" || Ascii.eqb c "+" then (Ascii.eqb c "-", s')
        else (false, s)
    | EmptyString => (false, s)
    end in
  match leadingInt s1 0 with
  | Some (q, EmptyString) => Some (if neg then - q else q)
  | _ => None
  end.

(** time.getnum: a one- or two-digit number, two digits exactly when
    [fixed]; [None] is errBad, and the value is then left where it was. *)
Definition getnum (s : string) (fixed : bool) : option (Z * string) :=
  match s with
  | String c0 s0 =>
      if negb (isDigitByte c0) then None
      else
        match s0 with
        | String c1 s1 =>
            if isDigitByte c1
            then Some ((byteval c0 - 48) * 10 + (byteval c1 - 48), s1)
            else if fixed then None else Some (byteval c0 - 48, s0)
        | EmptyString => if fixed then None else Some (byteval c0 - 48, s0)
        end
  | EmptyString => None
  end.

(** time.parseNanoseconds: [value[0]] is the separator, [value[1:nbytes]]
    the digits; yields (ns, rangeErrString, err). *)
Definition parseNanoseconds (value : string) (nbytes : nat) : Z * string * bool :=
  match value with
  | EmptyString => (0, "", true)
  | String c _ =>
      if negb (commaOrPeriod c) then (0, "", true)
      else
        let nbytes := Nat.min nbytes 10 in
        match atoi (sliceFrom 1 (sliceTo nbytes value)) with
        | None => (0, "", true)
        | Some ns =>
            if ns <? 0 then (ns, "fractional second", false)
            else (ns * 10 ^ Z.of_nat (10 - nbytes), "", false)
        end
  end.

(** time.skip, for a prefix without spaces (the prefixes of the layout
    below are the quote, [-], [T] and [:]): the value after the prefix, or
    the value at the first mismatch and errBad. *)
Fixpoint skip (value pref : string) {struct pref} : string * bool :=
  match pref with
  | EmptyString => (value, false)
  | String p pref' =>
      match value with
      | EmptyString => (value, true)
      | String v value' =>
          if Ascii.eqb v p then skip value' pref' else (value, true)
      end
  end.

Definition lowerhex (n : Z) : ascii :=
  match String.get (Z.to_nat n) "0123456789abcdef" with
  | Some c => c
  | None => "0"%char
  end.

(** time.quote without the surrounding quotes.  The source ranges over the
    runes of [s] and escapes every byte of a rune outside printable ASCII;
    all bytes of such runes are >= 0x80 or < 0x20, so the loop is a map over
    the bytes. *)
Fixpoint quote_bytes (s : string) : string :=
  match s with
  | EmptyString => EmptyString
  | String c s' =>
      let n := byteval c in
      if (128 <=? n) || (n <? 32)
      then String "\" (String "x" (String (lowerhex (n / 16))
             (String (lowerhex (n mod 16)) (quote_bytes s'))))
      else if Ascii.eqb c dquote || Ascii.eqb c "\"
      then String "\" (String c (quote_bytes s'))
      else String c (quote_bytes s')
  end.

Definition quote (s : string) : string :=
  String dquote (quote_bytes s ++ String dquote EmptyString).

(** *** Instants (time/time.go) *)

(** [*time.Location] as far as time.Parse produces it: [UTC] is the nil
    location of the zero [Time], [Local] the zone of the host. *)
Inductive Location : Type :=
| UTC
| Local
| FixedZone (name : string) (offset : Z).

(** [time.Time] without a monotonic reading: [wall] holds the nanoseconds
    within the second, [ext] the seconds since January 1, year 1, UTC. *)
Record Time : Type := mkTime {
  wall : Z;
  ext : Z;
  loc : Location
}.

(** The zero value [time.Time{}]: January 1, year 1, 00:00:00 UTC. *)
Definition zeroTime : Time := mkTime 0 0 UTC.

Definition secondsPerMinute : Z := 60.
Definition secondsPerHour : Z := 60 * secondsPerMinute.
Definition secondsPerDay : Z := 24 * secondsPerHour.
Definition daysPer400Years : Z := 365 * 400 + 97.
Definition daysPer100Years : Z := 365 * 100 + 24.
Definition daysPer4Years : Z := 365 * 4 + 1.
Definition absoluteZeroYear : Z := -292277022399.
Definition internalYear : Z := 1.
(** [(absoluteZeroYear - internalYear) * 365.2425 * secondsPerDay]. *)
Definition absoluteToInternal : Z :=
  (absoluteZeroYear - internalYear) * 3652425 * secondsPerDay / 10000.
Definition unixToInternal : Z :=
  (1969 * 365 + 1969 / 4 - 1969 / 100 + 1969 / 400) * secondsPerDay.
Definition internalToUnix : Z := - unixToInternal.

Definition isLeap (year : Z) : bool :=
  (Z.rem year 4 =? 0) && (negb (Z.rem year 100 =? 0) || (Z.rem year 400 =? 0)).

Definition daysBefore : list Z :=
  [0; 31; 59; 90; 120; 151; 181; 212; 243; 273; 304; 334; 365].

Definition daysBeforeAt (i : Z) : Z := nth (Z.to_nat i) daysBefore 0.

(** time.daysIn, for a month in 1..12. *)
Definition daysIn (m year : Z) : Z :=
  if (m =? 2) && isLeap year then 29
  else daysBeforeAt m - daysBeforeAt (m - 1).

(** time.norm: carry [lo] into [hi] so that [0 <= lo < base]. *)
Definition norm (hi lo base : Z) : Z * Z :=
  let '(hi, lo) :=
    if lo <? 0
    then let n := Z.quot (- lo - 1) base + 1 in (hi - n, lo + n * base)
    else (hi, lo) in
  if base <=? lo
  then let n := Z.quot lo base in (hi + n, lo - n * base)
  else (hi, lo).

(** time.daysSinceEpoch: days from the absolute epoch to January 1 of
    [year]. *)
Definition daysSinceEpoch (year : Z) : Z :=
  let y := year - absoluteZeroYear in
  let n := y / 400 in
  let y := y - 400 * n in
  let d := daysPer400Years * n in
  let n := y / 100 in
  let y := y - 100 * n in
  let d := d + daysPer100Years * n in
  let n := y / 4 in
  let y := y - 4 * n in
  let d := d + daysPer4Years * n in
  d + 365 * y.

(** [time.Date(year, month, day, hour, min, sec, nsec, time.UTC)]; UTC is
    the only location time.Parse passes for a layout without a zone name.
    The absolute seconds stay below 2^64 for the years a four-digit field
    can hold, so the unsigned arithmetic of the source is exact. *)
Definition Date (year month day hour min sec nsec : Z) : Time :=
  let m := month - 1 in
  let '(year, m) := norm year m 12 in
  let month := m + 1 in
  let '(sec, nsec) := norm sec nsec 1000000000 in
  let '(min, sec) := norm min sec 60 in
  let '(hour, min) := norm hour min 60 in
  let '(day, hour) := norm day hour 24 in
  let d := daysSinceEpoch year in
  let d := d + daysBeforeAt (month - 1) in
  let d := if isLeap year && (3 <=? month) then d + 1 else d in
  let d := d + (day - 1) in
  let abs := d * secondsPerDay in
  let abs := abs + (hour * secondsPerHour + min * secondsPerMinute + sec) in
  let unix := abs + (absoluteToInternal + internalToUnix) in
  mkTime nsec (unix + unixToInternal) UTC.

(** [t.addSec(d)]; the saturation at the ends of int64 is out of reach of
    the instants built here. *)
Definition addSec (t : Time) (d : Z) : Time :=
  mkTime (wall t) (ext t + d) (loc t).

Definition setLoc (t : Time) (l : Location) : Time :=
  mkTime (wall t) (ext t) l.

Definition unixSec (t : Time) : Z := ext t + internalToUnix.

(** [t.Equal(u)]: the same instant, whatever the locations. *)
Definition Equal (t u : Time) : bool :=
  (ext t =? ext u) && (wall t =? wall u).

(** *** time.Parse for the Salesforce layout *)

(** The layout elements time.nextStdChunk finds in the layout below. *)
Inductive std : Type :=
| stdLongYear                   (* 2006 *)
| stdZeroMonth                  (* 01 *)
| stdZeroDay                    (* 02 *)
| stdHour                       (* 15 *)
| stdZeroMinute                 (* 04 *)
| stdZeroSecond                 (* 05 *)
| stdFracSecond0 (digits : nat) (* .000 *)
| stdNumTZ.                     (* -0700 *)

(** The layout of [UnmarshalJSON], quotes included. *)
Definition layout : string :=
  String dquote ("2006-01-02T15:04:05.000-0700" ++ String dquote EmptyString).

(** The layout cut by nextStdChunk: each element with the literal prefix
    before it and its own text, then the literal text after the last one. *)
Definition dateTimeChunks : list (string * std * string) :=
  [ (String dquote EmptyString, stdLongYear, "2006");
    ("-", stdZeroMonth, "01");
    ("-", stdZeroDay, "02");
    ("T", stdHour, "15");
    (":", stdZeroMinute, "04");
    (":", stdZeroSecond, "05");
    ("", stdFracSecond0 3, ".000") ].

Definition zoneChunk : string * std * string := ("", stdNumTZ, "-0700").

Definition layoutChunks : list (string * std * string) :=
  (dateTimeChunks ++ [zoneChunk])%list.

Definition layoutTail : string := String dquote EmptyString.

(** The local variables of time.Parse that this layout can set. *)
Record fields : Type := mkFields {
  year : Z;
  month : Z;
  day : Z;
  hour : Z;
  min : Z;
  sec : Z;
  nsec : Z;
  zoneOffset : Z
}.

Definition initFields : fields := mkFields 0 (-1) (-1) 0 0 0 0 (-1).

Definition setYear (f : fields) (v : Z) : fields :=
  mkFields v (month f) (day f) (hour f) (min f) (sec f) (nsec f) (zoneOffset f).
Definition setMonth (f : fields) (v : Z) : fields :=
  mkFields (year f) v (day f) (hour f) (min f) (sec f) (nsec f) (zoneOffset f).
Definition setDay (f : fields) (v : Z) : fields :=
  mkFields (year f) (month f) v (hour f) (min f) (sec f) (nsec f) (zoneOffset f).
Definition setHour (f : fields) (v : Z) : fields :=
  mkFields (year f) (month f) (day f) v (min f) (sec f) (nsec f) (zoneOffset f).
Definition setMin (f : fields) (v : Z) : fields :=
  mkFields (year f) (month f) (day f) (hour f) v (sec f) (nsec f) (zoneOffset f).
Definition setSec (f : fields) (v : Z) : fields :=
  mkFields (year f) (month f) (day f) (hour f) (min f) v (nsec f) (zoneOffset f).
Definition setNsec (f : fields) (v : Z) : fields :=
  mkFields (year f) (month f) (day f) (hour f) (min f) (sec f) v (zoneOffset f).
Definition setZoneOffset (f : fields) (v : Z) : fields :=
  mkFields (year f) (month f) (day f) (hour f) (min f) (sec f) (nsec f) v.

(** What one case of the switch in time.Parse leaves behind. *)
Record elemResult : Type := mkElem {
  rest : string;           (* value *)
  flds : fields;
  rangeErrString : string;
  bad : bool               (* err != nil *)
}.

(** The zone offset of [-0700]: sign, two digits of hours, two of minutes,
    seconds fixed to 00. *)
Definition parseNumTZ (value : string) (f : fields) : elemResult :=
  if len value <? 5 then mkElem value f "" true
  else
    let sign := sliceTo 1 value in
    let hour := sliceTo 2 (sliceFrom 1 value) in
    let min := sliceTo 2 (sliceFrom 3 value) in
    let seconds := "00" in
    let value := sliceFrom 5 value in
    let '(hr, err) :=
      match getnum hour true with
      | Some (n, _) => (n, false)
      | None => (0, true)
      end in
    let '(mm, err) :=
      if err then (0, err)
      else match getnum min true with
           | Some (n, _) => (n, false)
           | None => (0, true)
           end in
    let '(ss, err) :=
      if err then (0, err)
      else match getnum seconds true with
           | Some (n, _) => (n, false)
           | None => (0, true)
           end in
    let rangeErr := if 24 <? hr then "time zone offset hour" else "" in
    let rangeErr := if 60 <? mm then "time zone offset minute" else rangeErr in
    let rangeErr := if 60 <? ss then "time zone offset second" else rangeErr in
    let zoneOffset := (hr * 60 + mm) * 60 + ss in
    if String.eqb sign "+" then mkElem value (setZoneOffset f zoneOffset) rangeErr err
    else if String.eqb sign "-"
    then mkElem value (setZoneOffset f (- zoneOffset)) rangeErr err
    else mkElem value (setZoneOffset f zoneOffset) rangeErr true.

(** One case of the switch over the layout element. *)
Definition parseElem (s : std) (value : string) (f : fields) : elemResult :=
  match s with
  | stdLongYear =>
      if (len value <? 4) || negb (isDigit value 0) then mkElem value f "" true
      else
        match atoi (sliceTo 4 value) with
        | Some y => mkElem (sliceFrom 4 value) (setYear f y) "" false
        | None => mkElem (sliceFrom 4 value) (setYear f 0) "" true
        end
  | stdZeroMonth =>
      match getnum value true with
      | Some (m, value') =>
          mkElem value' (setMonth f m)
            (if (m <=? 0) || (12 <? m) then "month" else "") false
      | None => mkElem value (setMonth f 0) "" true
      end
  | stdZeroDay =>
      match getnum value true with
      | Some (d, value') => mkElem value' (setDay f d) "" false
      | None => mkElem value (setDay f 0) "" true
      end
  | stdHour =>
      match getnum value false with
      | Some (h, value') =>
          mkElem value' (setHour f h)
            (if (h <? 0) || (24 <=? h) then "hour" else "") false
      | None => mkElem value (setHour f 0) "" true
      end
  | stdZeroMinute =>
      match getnum value true with
      | Some (m, value') =>
          mkElem value' (setMin f m)
            (if (m <? 0) || (60 <=? m) then "minute" else "") false
      | None => mkElem value (setMin f 0) "" true
      end
  | stdZeroSecond =>
      (* the next layout element is a fractional second, so the input's
         fraction is left to it *)
      match getnum value true with
      | Some (s, value') =>
          mkElem value' (setSec f s)
            (if (s <? 0) || (60 <=? s) then "second" else "") false
      | None => mkElem value (setSec f 0) "" true
      end
  | stdFracSecond0 digits =>
      let ndigit := S digits in
      if len value <? Z.of_nat ndigit then mkElem value f "" true
      else
        let '(ns, rangeErr, err) := parseNanoseconds value ndigit in
        mkElem (sliceFrom ndigit value) (setNsec f ns) rangeErr err
  | stdNumTZ => parseNumTZ value f
  end.

(** The loop of time.Parse over the layout elements.  A failure is the
    (LayoutElem, ValueElem, Message) of the ParseError. *)
Fixpoint parseChunks (chunks : list (string * std * string))
    (value : string) (f : fields) : (string * fields) + (string * string * string) :=
  match chunks with
  | [] => inl (value, f)
  | (pref, s, stdstr) :: chunks' =>
      match skip value pref with
      | (value, true) => inr (pref, value, "")
      | (value, false) =>
          let hold := value in
          let r := parseElem s value f in
          if negb (String.eqb (rangeErrString r) "")
          then inr (stdstr, rest r, ": " ++ rangeErrString r ++ " out of range")
          else if bad r then inr (stdstr, hold, "")
          else parseChunks chunks' (rest r) (flds r)
      end
  end.

(** After the last element: the literal tail, and nothing more. *)
Definition parseTail (value : string) : string + (string * string * string) :=
  match skip value layoutTail with
  | (value, true) => inr (layoutTail, value, "")
  | (value, false) =>
      if negb (len value =? 0)
      then inr ("", value, ": extra text: " ++ quote value)
      else inl value
  end.

(** The end of time.Parse: day-of-month validation, then the instant.
    [localOffset] is the offset of the host's zone at a Unix time
    ([local.lookup]); it decides the location only, never the instant. *)
Definition finish (localOffset : Z -> Z) (value : string) (f : fields)
    : Time + (string * string * string) :=
  let month := if month f <? 0 then 1 else month f in
  let day := if day f <? 0 then 1 else day f in
  if (day <? 1) || (daysIn month (year f) <? day)
  then inr ("", value, ": day out of range")
  else if negb (zoneOffset f =? -1)
  then
    let t := Date (year f) month day (hour f) (min f) (sec f) (nsec f) in
    let t := addSec t (- zoneOffset f) in
    if localOffset (unixSec t) =? zoneOffset f
    then inl (setLoc t Local)
    else inl (setLoc t (FixedZone "" (zoneOffset f)))
  else inl (Date (year f) month day (hour f) (min f) (sec f) (nsec f)).

(** [time.Parse(layout, value)] for the layout above. *)
Definition Parse (localOffset : Z -> Z) (value : string) : result Time :=
  let fail '(le, ve, msg) :=
    Err (timeParseError (newParseError layout value le ve msg)) in
  match parseChunks layoutChunks value initFields with
  | inr e => fail e
  | inl (value1, f) =>
      match parseTail value1 with
      | inr e => fail e
      | inl value2 =>
          match finish localOffset value2 f with
          | inr e => fail e
          | inl t => Ok t
          end
      end
  end.

End GoTime.
Import GoTime.

(** ** Time codec *)

(** [type SalesforceTime struct { time.Time }]. *)
Record SalesforceTime : Type := mkSalesforceTime {
  Time_ : Time
}.

(** [func (t *SalesforceTime) UnmarshalJSON(b []byte) error]: the receiver
    after the call, and the error. *)
Definition UnmarshalJSON (localOffset : Z -> Z) (t : SalesforceTime) (b : string)
    : SalesforceTime * option error :=
  let s := b in
  if String.eqb s "null" then (t, None)
  else
    match Parse localOffset s with
    | Err err => (t, Some err)
    | Ok tt0 => (mkSalesforceTime tt0, None)
    end.

(** *** The wire form

    What the platform sends: [YYYY-MM-DDThh:mm:ss.sss+hhmm] in quotes, every
    field written with leading zeros. *)

(** The byte of a decimal digit. *)
Definition digitByte (d : Z) : ascii := ascii_of_N (Z.to_N (48 + d)).

(** A number in two, three or four digits, followed by [k]. *)

Definition pad2 (n : Z) (k : string) : string :=
  String (digitByte (n / 10)) (String (digitByte (n mod 10)) k).

Definition pad3 (n : Z) (k : string) : string :=
  String (digitByte (n / 100)) (pad2 (n mod 100) k).

Definition pad4 (n : Z) (k : string) : string :=
  String (digitByte (n / 1000)) (pad3 (n mod 1000) k).

(** The wire form up to the milliseconds: the opening quote and
    [YYYY-MM-DDThh:mm:ss.sss], followed by [k]. *)
Definition wireDateTime (y mo d h mi s ms : Z) (k : string) : string :=
  String dquote (pad4 y (String "-" (pad2 mo (String "-" (pad2 d
    (String "T" (pad2 h (String ":" (pad2 mi (String ":" (pad2 s
      (String "." (pad3 ms k))))))))))))).

Definition signByte (neg : bool) : ascii := if neg then "-"%char else "+"%char.

(** The numeric offset [+hhmm] or [-hhmm] of the platform. *)
Definition wireTime (y mo d h mi s ms : Z) (neg : bool) (zh zm : Z) : string :=
  wireDateTime y mo d h mi s ms
    (String (signByte neg) (pad2 zh (pad2 zm (String dquote EmptyString)))).

(** The two ISO-8601 forms of the zone: the suffix [Z], and an offset with
    a colon, [+hh:mm] or [-hh:mm]. *)
Definition wireTimeZ (y mo d h mi s ms : Z) : string :=
  wireDateTime y mo d h mi s ms (String "Z" (String dquote EmptyString)).

Definition colonOffset (neg : bool) (zh zm : Z) : string :=
  String (signByte neg) (pad2 zh (String ":" (pad2 zm (String dquote EmptyString)))).

Definition wireTimeColon (y mo d h mi s ms : Z) (neg : bool) (zh zm : Z) : string :=
  wireDateTime y mo d h mi s ms (colonOffset neg zh zm).

(** The zone offset in seconds east of UTC. *)
Definition zoneSeconds (neg : bool) (zh zm : Z) : Z :=
  if neg then - ((zh * 60 + zm) * 60) else (zh * 60 + zm) * 60.

(** The fields of a date of the calendar and a time of day, and of a zone
    offset, as the letters of the pattern name them. *)
Definition validDateTime (y mo d h mi s ms : Z) : Prop :=
  0 <= y <= 9999 /\ 1 <= mo <= 12 /\ 1 <= d <= daysIn mo y /\
  0 <= h <= 23 /\ 0 <= mi <= 59 /\ 0 <= s <= 59 /\ 0 <= ms <= 999.

Definition validOffset (zh zm : Z) : Prop :=
  0 <= zh <= 23 /\ 0 <= zm <= 59.

(** [rest] is what is left of [value] after some prefix. *)
Definition tailOf (value rest : string) : Prop := exists p, value = p ++ rest.

(** ** strconv.Atoi (64-bit int) *)

Module GoStrconv.

Inductive numError : Type :=
| ErrSyntax
| ErrRange.

(** The digit loop of strconv.ParseUint for base 10 and 64 bits: [n] is
    the value so far.  A byte that is no decimal digit is a syntax error;
    an overflow stops the loop at once with the largest value. *)
Fixpoint parseUintLoop (s : string) (n : Z) : Z * option numError :=
  match s with
  | EmptyString => (n, None)
  | String c s' =>
      if negb (isDigitByte c) then (0, Some ErrSyntax)
      else
        let d := byteval c - 48 in
        let cutoff := (2 ^ 64 - 1) / 10 + 1 in
        let maxVal := 2 ^ 64 - 1 in
        if cutoff <=? n then (maxVal, Some ErrRange)
        else
          let n1 := n * 10 + d in
          if maxVal <? n1 then (maxVal, Some ErrRange)
          else parseUintLoop s' n1
  end.

(** [strconv.ParseUint(s, 10, 0)]. *)
Definition ParseUint (s : string) : Z * option numError :=
  if String.eqb s "" then (0, Some ErrSyntax) else parseUintLoop s 0.

(** [strconv.ParseInt(s, 10, 0)]: on a range error the result is the
    largest magnitude of the sign, not zero. *)
Definition ParseInt (s : string) : Z * option numError :=
  match s with
  | EmptyString => (0, Some ErrSyntax)
  | String c s' =>
      let '(neg, s1) :=
        if Ascii.eqb c "+" then (false, s')
        else if Ascii.eqb c "-" then (true, s')
        else (false, s) in
      match ParseUint s1 with
      | (_, Some ErrSyntax) => (0, Some ErrSyntax)
      | (un, _) =>
          let cutoff := 2 ^ 63 in
          if negb neg && (cutoff <=? un) then (cutoff - 1, Some ErrRange)
          else if neg && (cutoff <? un) then (- cutoff, Some ErrRange)
          else (if neg then - un else un, None)
      end
  end.

(** The fast path of strconv.Atoi, for 1 to 18 bytes. *)
Fixpoint atoiFast (s : string) (n : Z) : Z * option numError :=
  match s with
  | EmptyString => (n, None)
  | String ch s' =>
      if negb (isDigitByte ch) then (0, Some ErrSyntax)
      else atoiFast s' (n * 10 + (byteval ch - 48))
  end.

(** [strconv.Atoi(s)]: the value and the error. *)
Definition Atoi (s : string) : Z * option numError :=
  let sLen := len s in
  if (0 <? sLen) && (sLen <? 19)
  then
    match s with
    | String c s' =>
        if Ascii.eqb c "-" || Ascii.eqb c "+"
        then
          if len s' <? 1 then (0, Some ErrSyntax)
          else
            match atoiFast s' 0 with
            | (n, None) => (if Ascii.eqb c "-" then - n else n, None)
            | r => r
            end
        else atoiFast s 0
    | EmptyString => (0, Some ErrSyntax)
    end
  else ParseInt s.

End GoStrconv.
Import GoStrconv.

(** ** HTTP (net/http, net/textproto, io) *)

Module GoHTTP.

(** The bytes of an HTTP token (textproto.validHeaderFieldByte). *)
Definition validHeaderFieldByte (c : ascii) : bool :=
  let n := byteval c in
  ((48 <=? n) && (n <=? 57)) || ((65 <=? n) && (n <=? 90))
  || ((97 <=? n) && (n <=? 122))
  || existsb (Ascii.eqb c)
       (list_ascii_of_string "!#$%&'*+-.^_`|~").

(** The second loop of textproto.canonicalMIMEHeaderKey: upper case at the
    start and after each dash, lower case elsewhere. *)
Fixpoint canonicalize (upper : bool) (a : string) : string :=
  match a with
  | EmptyString => EmptyString
  | String c a' =>
      let n := byteval c in
      let c' :=
        if upper && (97 <=? n) && (n <=? 122) then ascii_of_N (Z.to_N (n - 32))
        else if negb upper && (65 <=? n) && (n <=? 90) then ascii_of_N (Z.to_N (n + 32))
        else c in
      String c' (canonicalize (Ascii.eqb c' "-") a')
  end.

(** [textproto.CanonicalMIMEHeaderKey]: a key with a byte outside the
    token bytes is returned unchanged. *)
Definition CanonicalMIMEHeaderKey (s : string) : string :=
  if forallb validHeaderFieldByte (list_ascii_of_string s)
  then canonicalize true s else s.

(** [http.Header.Add]. *)
Definition Header_Add (h : gmap string (list string)) (key value : string)
    : gmap string (list string) :=
  let key := CanonicalMIMEHeaderKey key in
  <[key := (default [] (h !! key) ++ [value])%list]> h.

(** [http.Header.Get]: the first value of the key, or the empty string. *)
Definition Header_Get (h : gmap string (list string)) (key : string) : string :=
  match h !! CanonicalMIMEHeaderKey key with
  | Some (v :: _) => v
  | _ => ""
  end.

Record Request : Type := mkRequest {
  Method : string;
  URL : string;
  ReqHeader : gmap string (list string)
}.

(** A response body as a reader: the bytes it delivers, then end of file
    or a read error. *)
Record Body : Type := mkBody {
  data : string;
  readErr : option error
}.

Record Response : Type := mkResponse {
  Status : string;
  StatusCode : Z;
  Header : gmap string (list string);
  RespBody : Body;
  ContentLength : Z
}.

(** [io.ReadAll(resp.Body)]. *)
Definition io_ReadAll (b : Body) : string * option error := (data b, readErr b).

(** [io.Copy(out, resp.Body)] into an empty buffer: the buffer afterwards
    and the error. *)
Definition io_Copy (b : Body) : string * option error := (data b, readErr b).

End GoHTTP.
Import GoHTTP.

(** ** The bulk job *)

(** [*Client] as bulk.go uses it: the session token and the URL builder.
    Its transport is part of the [World] below. *)
Record Client : Type := mkClient {
  sessionID : string;
  makeURL : string -> string
}.

Record BulkJobResultSet : Type := mkBulkJobResultSet {
  Body_ : string;   (* the contents of the buffer *)
  Next : string;
  Rows : Z
}.

Record BulkJobStatus : Type := mkBulkJobStatus {
  State : JobStateEnum;
  NumberRecordsProcessed : Z;
  Retries : Z;
  TotalProcessingTimeMilliseconds : Z
}.

(** [BulkJob]; the float64 field ApiVersion, which no operation reads, is
    left out. *)
Record BulkJob : Type := mkBulkJob {
  client : Client;
  Id : string;
  Operation : string;
  Object : string;
  CreatedById : string;
  CreatedDate : SalesforceTime;
  SystemModstamp : SalesforceTime;
  JobState : string;
  ConcurrencyMode : string;
  ContentType : string;
  LineEnding : string;
  ColumnDelimiter : string
}.

(** What a call does to the outside: requests and sleeps, oldest first. *)
Inductive Event : Type :=
| EvHttpRequest (method url : string)   (* client.httpRequest(method, url, nil) *)
| EvDo (req : Request)                  (* client.httpClient.Do(req) *)
| EvSleep (d : Z).                      (* time.Sleep(d) *)

(** The collaborators of bulk.go.  The transport answers a request as a
    function of everything that happened before it; the decoders are pure;
    the Go runtime of the host bounds what can be allocated. *)
Record World : Type := mkWorld {
  httpRequest : list Event -> string -> string -> result string;
  httpClient_Do : list Event -> Request -> result Response;
  url_Parse : string -> option error;   (* the failure of http.NewRequest *)
  json_Unmarshal : string -> result BulkJobStatus;
  ParseSalesforceError : Z -> string -> option error;
  maxAlloc : Z;             (* the runtime's limit on one allocation, in bytes *)
  mallocgc : Z -> bool      (* can the heap supply that many bytes *)
}.

(** [context.Context]: [ctx.Err()] at a point of the history, [None] while
    [ctx.Done()] is open. *)
Definition Context : Type := list Event -> option ctxErr.

(** [time.Second] as a [time.Duration], in nanoseconds. *)
Definition Second : Z := 1000000000.

(** [http.NewRequest(method, url, nil)] for a valid method. *)
Definition http_NewRequest (W : World) (method url : string) : result Request :=
  match url_Parse W url with
  | Some err => Err err
  | None => Ok (mkRequest method url ∅)
  end.

(** [errors.Join(sfErr, err)] for a non-nil [err]: the join of the values
    that are not nil. *)
Definition joinWith (sfErr : option error) (err : error) : error :=
  joinError (omap id [sfErr; Some err]).

(** [GetStatus] at history [tr]: the status or the error, and the history
    afterwards. *)
Definition GetStatus (W : World) (job : BulkJob) (tr : list Event)
    : result BulkJobStatus * list Event :=
  let url := makeURL (client job) ("jobs/query/" ++ Id job) in
  let tr1 := (tr ++ [EvHttpRequest "GET" url])%list in
  match httpRequest W tr "GET" url with
  | Err err => (Err err, tr1)
  | Ok b =>
      match json_Unmarshal W b with
      | Err err =>
          let sfErr := ParseSalesforceError W 0 b in
          (Err (joinWith sfErr err), tr1)
      | Ok status => (Ok status, tr1)
      end
  end.

(** [Wait]: the loop runs at most [fuel] iterations; [None] when the fuel
    runs out first. *)
Fixpoint Wait (W : World) (job : BulkJob) (ctx : Context) (fuel : nat)
    (tr : list Event) : option (option error * list Event) :=
  match fuel with
  | O => None
  | S fuel' =>
      match ctx tr with
      | Some e => Some (Some (contextError e), tr)
      | None =>
          match GetStatus W job tr with
          | (Err err, tr1) => Some (Some err, tr1)
          | (Ok status, tr1) =>
              if IsFinished (State status)
              then Some (ToError (State status), tr1)
              else Wait W job ctx fuel' (tr1 ++ [EvSleep (10 * Second)])%list
          end
      end
  end.

(** The request [GetResultSet] builds; [locator] is the parameter of the
    source, which the body never reads. *)
Definition resultSetRequest (W : World) (job : BulkJob) (locator : string)
    : result Request :=
  let url := makeURL (client job) ("jobs/query/" ++ Id job ++ "/results") in
  match http_NewRequest W "GET" url with
  | Err err => Err err
  | Ok req =>
      let h := ReqHeader req in
      let h := Header_Add h "Content-Type" "application/json" in
      let h := Header_Add h "Accept" "text/csv" in
      let h := Header_Add h "Authorization" ("Bearer " ++ sessionID (client job)) in
      Ok (mkRequest (Method req) (URL req) h)
  end.

(** [make([]byte, 0, cap)] for a positive int64 [cap] on a 64-bit host
    (runtime.makeslice64, makeslice): a capacity beyond the runtime's limit
    panics; below it the heap supplies the bytes or the process dies. *)
Definition makeslice (W : World) (cap : Z) : outcome unit :=
  if maxAlloc W <? cap
  then Panics "runtime error: makeslice: cap out of range"
  else if mallocgc W cap then Returns tt
  else Dies "fatal error: runtime: out of memory".

(** The buffer [GetResultSet] copies the body into: sized from the
    declared content length when that is positive, empty otherwise. *)
Definition presize (W : World) (resp : Response) : outcome unit :=
  if 0 <? ContentLength resp then makeslice W (ContentLength resp)
  else Returns tt.

(** [GetResultSet]: how the call ends (with the page or the error when it
    returns), and the history afterwards. *)
Definition GetResultSet (W : World) (job : BulkJob) (locator : string)
    (tr : list Event) : outcome (result BulkJobResultSet) * list Event :=
  match resultSetRequest W job locator with
  | Err err => (Returns (Err err), tr)
  | Ok req =>
      let tr1 := (tr ++ [EvDo req])%list in
      match httpClient_Do W tr req with
      | Err err => (Returns (Err err), tr1)
      | Ok resp =>
          if 400 <=? StatusCode resp
          then
            let '(b, _) := io_ReadAll (RespBody resp) in
            (Returns (Err (errorString ("failed to get result set from bulk job: "
                              ++ Status resp ++ " body(" ++ b ++ ")"))), tr1)
          else
            match presize W resp with
            | Panics msg => (Panics msg, tr1)
            | Dies msg => (Dies msg, tr1)
            | Returns _ =>
                match io_Copy (RespBody resp) with
                | (_, Some err) => (Returns (Err err), tr1)
                | (out, None) =>
                    let '(rows, _) :=
                      Atoi (Header_Get (Header resp) "Sforce-NumberOfRecords") in
                    (Returns (Ok (mkBulkJobResultSet out
                                    (Header_Get (Header resp) "Sforce-Locator") rows)),
                     tr1)
                end
            end
      end
  end.

(** The request [Delete] builds: a GET to the status endpoint. *)
Definition deleteRequest (W : World) (job : BulkJob) : result Request :=
  let url := makeURL (client job) ("jobs/query/" ++ Id job) in
  match http_NewRequest W "GET" url with
  | Err err => Err err
  | Ok req =>
      let h := ReqHeader req in
      let h := Header_Add h "Content-Type" "application/json" in
      let h := Header_Add h "Authorization" ("Bearer " ++ sessionID (client job)) in
      Ok (mkRequest (Method req) (URL req) h)
  end.

Definition Delete (W : World) (job : BulkJob) (tr : list Event)
    : option error * list Event :=
  match deleteRequest W job with
  | Err err => (Some err, tr)
  | Ok req =>
      let tr1 := (tr ++ [EvDo req])%list in
      match httpClient_Do W tr req with
      | Err err => (Some err, tr1)
      | Ok resp =>
          if 400 <=? StatusCode resp
          then
            let '(b, _) := io_ReadAll (RespBody resp) in
            (Some (errorString ("failed to delete bulk job: "
                      ++ Status resp ++ " body(" ++ b ++ ")")), tr1)
          else (None, tr1)
      end
  end.

(** ** Reading traces *)

(** The requests of a trace, in order. *)
Definition isFetch (e : Event) : bool :=
  match e with
  | EvSleep _ => false
  | _ => true
  end.

Definition fetches (tr : list Event) : nat := length (filter isFetch tr).

(** The durations of the sleeps of a trace, in order. *)
Definition sleeps (tr : list Event) : list Z :=
  omap (fun e => match e with EvSleep d => Some d | _ => None end) tr.

(** [sub] occurs in [s]. *)
Definition contains (s sub : string) : Prop :=
  exists pre post, s = pre ++ sub ++ post.

(** ** Polling runs *)

Definition statusURL (job : BulkJob) : string :=
  makeURL (client job) ("jobs/query/" ++ Id job).

(** A state from which the job still moves on. *)
Definition nonTerminal (s : JobStateEnum) : Prop :=
  s = UploadComplete \/ s = InProgress.

(** From history [tr0] on, the successive status fetches decode to
    statuses in the states [states]: the fetch made after [i] further
    requests yields the [i]-th of them. *)
Definition polls (W : World) (job : BulkJob) (tr0 : list Event)
    (states : list JobStateEnum) : Prop :=
  forall (tr : list Event) (i : nat) (s : JobStateEnum),
    fetches tr = (fetches tr0 + i)%nat ->
    states !! i = Some s ->
    exists st, fst (GetStatus W job tr) = Ok st /\ State st = s.

(** ** Sample collaborators *)

(** A receiver that holds 2023-12-02T02:30:02Z. *)
Definition someTime : SalesforceTime := mkSalesforceTime (Date 2023 12 2 2 30 2 0).

(** The transport answers the request [rq] with [resp] at history [tr]. *)
Definition answers (W : World) (tr : list Event) (rq : result Request)
    (resp : Response) : Prop :=
  exists req, rq = Ok req /\ httpClient_Do W tr req = Ok resp.

Definition mockClient : Client :=
  mkClient "00Dxx!token" (fun path => "https://example.invalid/services/data/v58.0/" ++ path).

Definition mockJob : BulkJob :=
  mkBulkJob mockClient "750R0000000zlh9IAA" "query" "Account" "005R0000000GiwjIAC"
    (mkSalesforceTime zeroTime) (mkSalesforceTime zeroTime)
    "UploadComplete" "Parallel" "CSV" "LF" "COMMA".

Definition mockResponse (code : Z) (status : string)
    (h : gmap string (list string)) (body : string) : Response :=
  mkResponse status code h (mkBody body None) (len body).

(** A world whose transport answers with [f] and which is never polled. *)
Definition doWorld (f : list Event -> Request -> result Response) : World :=
  mkWorld (fun _ _ _ => Err (externalError "unexpected status poll")) f
    (fun _ => None)
    (fun _ => Err (externalError "unexpected JSON"))
    (fun _ _ => None)
    (2 ^ 48) (fun _ => true).

(** The results endpoint answers 500 with body boom, every other one 204. *)
Definition boomWorld : World :=
  doWorld (fun _ req =>
    if String.eqb (URL req)
         "https://example.invalid/services/data/v58.0/jobs/query/750R0000000zlh9IAA/results"
    then Ok (mockResponse 500 "500 Internal Server Error" ∅ "boom")
    else Ok (mockResponse 204 "204 No Content" ∅ "")).

(** The results endpoint answers 200 with the given headers and body. *)
Definition pageWorld (h : gmap string (list string)) (body : string) : World :=
  doWorld (fun _ _ => Ok (mockResponse 200 "200 OK" h body)).

(** A status endpoint that answers the successive polls with the given
    bodies, and a decoder that reads a body as the state. *)
Definition pollWorld (bodies : list string) : World :=
  mkWorld
    (fun tr _ _ =>
       match bodies !! fetches tr with
       | Some b => Ok b
       | None => Err (externalError "connection refused")
       end)
    (fun _ _ => Err (externalError "unexpected request"))
    (fun _ => None)
    (fun b => Ok (mkBulkJobStatus b 0 0 0))
    (fun _ _ => None)
    (2 ^ 48) (fun _ => true).

Definition neverDone : Context := fun _ => None.

Definition cancelled : Context := fun _ => Some Canceled.

(** The events of [k] turns of the loop of [Wait] on states that are not
    finished: a status fetch and a sleep of ten seconds each. *)
Fixpoint turns (job : BulkJob) (k : nat) : list Event :=
  match k with
  | O => []
  | S k' =>
      EvHttpRequest "GET" (statusURL job) :: EvSleep (10 * Second) :: turns job k'
  end.

(** A signal that is triggered once [n] requests have been made. *)
Definition cancelledAfter (n : nat) : Context :=
  fun tr => if (n <=? fetches tr)%nat then Some Canceled else None.

(** The timestamp of the repository's test, and the same instant with
    its zone written the two ISO ways. *)
Definition wireExample : string :=
  String dquote ("2023-12-02T02:30:02.000+0000" ++ String dquote "").

Definition wireExampleZ : string :=
  String dquote ("2023-12-02T02:30:02.000Z" ++ String dquote "").

Definition wireExampleColon : string :=
  String dquote ("2023-12-02T02:30:02.000+00:00" ++ String dquote "").

(** The status fetch of the sample job. *)
Definition statusGet : Event := EvHttpRequest "GET" (statusURL mockJob).

(** The status fetch of a job, as an event. *)
Definition statusFetch (job : BulkJob) : Event :=
  EvHttpRequest "GET" (statusURL job).

(** ** Decimal numerals *)

(** The bytes of the decimal digits [ds], most significant first. *)
Fixpoint numeral (ds : list Z) : string :=
  match ds with
  | [] => EmptyString
  | d :: ds' => String (digitByte d) (numeral ds')
  end.

(** The number the digits [ds] write, continuing from [acc]. *)
Fixpoint numValueFrom (acc : Z) (ds : list Z) : Z :=
  match ds with
  | [] => acc
  | d :: ds' => numValueFrom (acc * 10 + d) ds'
  end.

Definition numValue (ds : list Z) : Z := numValueFrom 0 ds.

Definition isDecimalDigit (d : Z) : Prop := 0 <= d <= 9.

(** A numeral with or without a minus sign, and its value. *)
Definition decimal (neg : bool) (ds : list Z) : string :=
  if neg then String "-" (numeral ds) else numeral ds.

Definition decimalValue (neg : bool) (ds : list Z) : Z :=
  if neg then - numValue ds else numValue ds.

(** A string without its leading sign, if it has one. *)
Definition stripSign (s : string) : string :=
  match s with
  | String c s' => if Ascii.eqb c "-" || Ascii.eqb c "+" then s' else s
  | EmptyString => s
  end.

Fixpoint allDigits (s : string) : bool :=
  match s with
  | EmptyString => true
  | String c s' => isDigitByte c && allDigits s'
  end.

(** A header value of at most 18 bytes that is no decimal number: nothing
    but a sign, or some byte after the sign that is no digit. *)
Definition notANumber (v : string) : Prop :=
  len v < 19 /\ (stripSign v = "" \/ allDigits (stripSign v) = false).

(** ** More sample collaborators *)

(** A status endpoint on which the job never leaves InProgress. *)
Definition stuckWorld : World :=
  mkWorld
    (fun _ _ _ => Ok "InProgress")
    (fun _ _ => Err (externalError "unexpected request"))
    (fun _ => None)
    (fun b => Ok (mkBulkJobStatus b 0 0 0))
    (fun _ _ => None)
    (2 ^ 48) (fun _ => true).

(** The results endpoint answers with the given status and headers, and a
    body that breaks off with a read error after the given bytes. *)
Definition brokenBodyWorld (code : Z) (status : string)
    (h : gmap string (list string)) (body : string) : World :=
  doWorld (fun _ _ =>
    Ok (mkResponse status code h
          (mkBody body (Some (externalError "unexpected EOF"))) (-1))).

(** Every endpoint answers 404 with a platform error as its body. *)
Definition goneWorld : World :=
  doWorld (fun _ _ => Ok (mockResponse 404 "404 Not Found" ∅ "NOT_FOUND")).

(** The results endpoint answers 200 and declares a content length of
    2^62 bytes. *)
Definition hugeResponse : Response :=
  mkResponse "200 OK" 200 ∅ (mkBody "Id" None) (2 ^ 62).

Definition hugeWorld : World := doWorld (fun _ _ => Ok hugeResponse).

(** A client whose own timeout fires during the status fetch: the
    transport's error is a deadline error. *)
Definition timeoutWorld : World :=
  mkWorld
    (fun _ _ _ => Err (contextError DeadlineExceeded))
    (fun _ _ => Err (externalError "unexpected request"))
    (fun _ => None)
    (fun b => Ok (mkBulkJobStatus b 0 0 0))
    (fun _ _ => None)
    (2 ^ 48) (fun _ => true).

(** A context whose deadline has passed. *)
Definition expired : Context := fun _ => Some DeadlineExceeded.

(** ** Header names *)

(** The case [canonicalize] gives one byte: upper case after the flag
    [upper], lower case otherwise, anything but a letter as it is. *)
Definition canonByte (upper : bool) (c : ascii) : ascii :=
  let n := byteval c in
  if upper && (97 <=? n) && (n <=? 122) then ascii_of_N (Z.to_N (n - 32))
  else if negb upper && (65 <=? n) && (n <=? 90) then ascii_of_N (Z.to_N (n + 32))
  else c.

(** ** Looser wire forms *)

(** The wire form with the hour as it is written, [hour], and with [sep]
    before the milliseconds, followed by [k]. *)
Definition wireLoose (y mo d : Z) (hour : string) (mi s : Z) (sep : ascii)
    (ms : Z) (k : string) : string :=
  String dquote (pad4 y (String "-" (pad2 mo (String "-" (pad2 d
    (String "T" (hour ++ String ":" (pad2 mi (String ":" (pad2 s
      (String sep (pad3 ms k)))))))))))).

(** The hour [h] written in two digits, or, below ten, in one. *)
Definition hourText (short : bool) (h : Z) : string :=
  if short then String (digitByte h) EmptyString else pad2 h EmptyString.

(** The zone [+hhmm] or [-hhmm] and the closing quote. *)
Definition zoneText (neg : bool) (zh zm : Z) : string :=
  String (signByte neg) (pad2 zh (pad2 zm (String dquote EmptyString))).

(** Fields that can be written in the wire form and read back, whether or
    not the day exists in the month. *)
Definition writableDateTime (y mo d h mi s ms : Z) : Prop :=
  0 <= y <= 9999 /\ 1 <= mo <= 12 /\ 0 <= d <= 99 /\
  0 <= h <= 23 /\ 0 <= mi <= 59 /\ 0 <= s <= 59 /\ 0 <= ms <= 999.

(** ** Widths *)

(** The least and the greatest number of bytes a layout element reads. *)
Definition elemWidth (s : std) : Z * Z :=
  match s with
  | stdLongYear => (4, 4)
  | stdHour => (1, 2)
  | stdFracSecond0 digits => (Z.of_nat (S digits), Z.of_nat (S digits))
  | stdNumTZ => (5, 5)
  | _ => (2, 2)
  end.

(** The same for a run of layout elements with their prefixes. *)
Fixpoint chunksWidth (chunks : list (string * std * string)) : Z * Z :=
  match chunks with
  | [] => (0, 0)
  | (pref, s, _) :: chunks' =>
      (len pref + fst (elemWidth s) + fst (chunksWidth chunks'),
       len pref + snd (elemWidth s) + snd (chunksWidth chunks'))
  end.

(** * Properties *)

(** ** Strings *)

Lemma append_cons (x : ascii) (a b : string) : String x a ++ b = String x (a ++ b).
Proof. reflexivity. Qed.

Lemma append_assoc (a b c : string) : (a ++ b) ++ c = a ++ (b ++ c).
Proof.
  induction a as [|x a IH]; [reflexivity|].
  now rewrite !append_cons, IH.
Qed.

(** ** Job state model *)

Lemma IsFinished_spec (j : JobStateEnum) :
  IsFinished j = true <-> j = Aborted \/ j = JobComplete \/ j = Failed.
Proof.
  unfold IsFinished. rewrite !orb_true_iff, !String.eqb_eq. tauto.
Qed.

(** C7: [ToError] is a total function of the state; it yields the error
    "job aborted" exactly for Aborted and "job failed" exactly for Failed,
    two different errors, and nil for every other state, JobComplete
    included. *)
Theorem ToError_total_mapping :
  ToError Aborted = Some (errorString "job aborted") /\
  ToError Failed = Some (errorString "job failed") /\
  ToError Aborted <> ToError Failed /\
  ToError JobComplete = None /\
  ToError UploadComplete = None /\
  ToError InProgress = None /\
  forall j : JobStateEnum,
    (j = Aborted /\ ToError j = Some (errorString "job aborted")) \/
    (j = Failed /\ ToError j = Some (errorString "job failed")) \/
    (j <> Aborted /\ j <> Failed /\ ToError j = None).
Proof.
  repeat split; try reflexivity; try discriminate.
  intros j. unfold ToError.
  destruct (String.eqb_spec j Aborted) as [->|Ha]; [left; auto|].
  destruct (String.eqb_spec j Failed) as [->|Hf]; [right; left; auto|].
  right; right; auto.
Qed.

(** ** Time codec: what the receiver holds afterwards *)

(** The three ways out of [UnmarshalJSON]. *)
Lemma UnmarshalJSON_cases (localOffset : Z -> Z) (t : SalesforceTime) (b : string) :
  (b = "null" /\ UnmarshalJSON localOffset t b = (t, None)) \/
  (b <> "null" /\ exists e, Parse localOffset b = Err e /\
     UnmarshalJSON localOffset t b = (t, Some e)) \/
  (b <> "null" /\ exists t', Parse localOffset b = Ok t' /\
     UnmarshalJSON localOffset t b = (mkSalesforceTime t', None)).
Proof.
  unfold UnmarshalJSON.
  destruct (String.eqb_spec b "null") as [->|Hn]; [left; auto|].
  right. destruct (Parse localOffset b) as [t'|e]; [right|left]; eauto.
Qed.

(** C10: the receiver is written only when parsing succeeds: on null the
    call returns nil and the receiver is as before; on an input that fails
    to parse it returns the parse error and the receiver is as before; in
    the one remaining case the input parsed and the receiver holds the
    parsed time. *)
Theorem UnmarshalJSON_writes_only_on_success :
  forall (localOffset : Z -> Z) (t : SalesforceTime) (b : string),
    let t' := fst (UnmarshalJSON localOffset t b) in
    let err := snd (UnmarshalJSON localOffset t b) in
    (b = "null" /\ err = None /\ t' = t) \/
    (b <> "null" /\ (exists e, Parse localOffset b = Err e /\ err = Some e) /\ t' = t) \/
    (b <> "null" /\ err = None /\
       exists parsed, Parse localOffset b = Ok parsed /\ t' = mkSalesforceTime parsed).
Proof.
  intros lo t b.
  destruct (UnmarshalJSON_cases lo t b) as [[Hb ->]|[[Hb [e [He ->]]]|[Hb [p [Hp ->]]]]];
    simpl; eauto 10.
Qed.

(** C6, counterexample: on null a receiver that holds a time keeps it, so
    the result is not the zero-value instant. *)
Lemma UnmarshalJSON_null_keeps_receiver :
  fst (UnmarshalJSON (fun _ => 0) someTime "null") <> mkSalesforceTime zeroTime.
Proof. vm_compute. discriminate. Qed.

(** C6 (amended): on the JSON null literal [UnmarshalJSON] reports no error
    and leaves the receiver as it was; the result is the zero-value instant
    exactly when the receiver held the zero value before the call, as it
    does in a freshly allocated struct. *)
Theorem UnmarshalJSON_null :
  forall (localOffset : Z -> Z) (t : SalesforceTime),
    UnmarshalJSON localOffset t "null" = (t, None) /\
    UnmarshalJSON localOffset (mkSalesforceTime zeroTime) "null"
      = (mkSalesforceTime zeroTime, None) /\
    (fst (UnmarshalJSON localOffset t "null") = mkSalesforceTime zeroTime
       <-> t = mkSalesforceTime zeroTime).
Proof. intros lo t. simpl. tauto. Qed.

(** ** Time codec: reading the wire form *)

Lemma digit_cases (d : Z) :
  0 <= d <= 9 ->
  d = 0 \/ d = 1 \/ d = 2 \/ d = 3 \/ d = 4 \/ d = 5 \/ d = 6 \/ d = 7 \/ d = 8 \/ d = 9.
Proof. lia. Qed.

Ltac each_digit d H :=
  destruct (digit_cases d H) as [->|[->|[->|[->|[->|[->|[->|[->|[->| ->]]]]]]]]].

Lemma isDigitByte_digitByte (d : Z) : 0 <= d <= 9 -> isDigitByte (digitByte d) = true.
Proof. intros H. each_digit d H; reflexivity. Qed.

Lemma byteval_digitByte (d : Z) : 0 <= d <= 9 -> byteval (digitByte d) = 48 + d.
Proof. intros H. each_digit d H; reflexivity. Qed.

Lemma digitByte_not_sign (d : Z) :
  0 <= d <= 9 ->
  Ascii.eqb (digitByte d) "-" || Ascii.eqb (digitByte d) "+" = false.
Proof. intros H. each_digit d H; reflexivity. Qed.

Lemma tens_units (n : Z) :
  0 <= n <= 99 -> 0 <= n / 10 <= 9 /\ 0 <= n mod 10 <= 9 /\ n / 10 * 10 + n mod 10 = n.
Proof.
  intros H. pose proof (Z.div_mod n 10). pose proof (Z.mod_pos_bound n 10).
  assert (0 <= n / 10) by (apply Z.div_pos; lia).
  assert (n / 10 < 10) by (apply Z.div_lt_upper_bound; lia).
  lia.
Qed.

Lemma getnum_pad2 (n : Z) (k : string) (fixed : bool) :
  0 <= n <= 99 -> getnum (pad2 n k) fixed = Some (n, k).
Proof.
  intros H. destruct (tens_units n H) as [Ht [Hu He]].
  unfold pad2, getnum.
  rewrite (isDigitByte_digitByte _ Ht), (isDigitByte_digitByte _ Hu).
  rewrite (byteval_digitByte _ Ht), (byteval_digitByte _ Hu). simpl negb. cbv iota.
  do 2 f_equal. lia.
Qed.

Lemma leadingInt_digit (d x : Z) (s : string) :
  0 <= d <= 9 -> 0 <= x <= 1000000000 ->
  leadingInt (String (digitByte d) s) x = leadingInt s (x * 10 + d).
Proof.
  intros Hd Hx. cbn [leadingInt].
  rewrite (isDigitByte_digitByte _ Hd), (byteval_digitByte _ Hd). simpl negb. cbv iota.
  assert (E1 : (2 ^ 63 / 10 <? x) = false) by (apply Z.ltb_ge; change (2 ^ 63 / 10) with 922337203685477580; lia).
  rewrite E1.
  assert (E2 : (2 ^ 63 <? x * 10 + (48 + d) - 48) = false) by (apply Z.ltb_ge; change (2 ^ 63) with 9223372036854775808; lia).
  rewrite E2. f_equal. lia.
Qed.

Lemma hundreds (n : Z) :
  0 <= n <= 999 -> 0 <= n / 100 <= 9 /\ 0 <= n mod 100 <= 99 /\ n / 100 * 100 + n mod 100 = n.
Proof.
  intros H. pose proof (Z.div_mod n 100). pose proof (Z.mod_pos_bound n 100).
  assert (0 <= n / 100) by (apply Z.div_pos; lia).
  assert (n / 100 < 10) by (apply Z.div_lt_upper_bound; lia).
  lia.
Qed.

Lemma thousands (n : Z) :
  0 <= n <= 9999 -> 0 <= n / 1000 <= 9 /\ 0 <= n mod 1000 <= 999 /\ n / 1000 * 1000 + n mod 1000 = n.
Proof.
  intros H. pose proof (Z.div_mod n 1000). pose proof (Z.mod_pos_bound n 1000).
  assert (0 <= n / 1000) by (apply Z.div_pos; lia).
  assert (n / 1000 < 10) by (apply Z.div_lt_upper_bound; lia).
  lia.
Qed.

Lemma leadingInt_pad2 (n x : Z) :
  0 <= n <= 99 -> 0 <= x <= 10000000 ->
  leadingInt (pad2 n "") x = Some (x * 100 + n, "").
Proof.
  intros H Hx. destruct (tens_units n H) as [Ht [Hu He]]. unfold pad2.
  rewrite leadingInt_digit by lia. rewrite leadingInt_digit by lia.
  cbn [leadingInt]. do 2 f_equal. lia.
Qed.

Lemma leadingInt_pad3 (n x : Z) :
  0 <= n <= 999 -> 0 <= x <= 100000 ->
  leadingInt (pad3 n "") x = Some (x * 1000 + n, "").
Proof.
  intros H Hx. destruct (hundreds n H) as [Hh [Hr He]]. unfold pad3.
  rewrite leadingInt_digit by lia. rewrite leadingInt_pad2 by lia.
  do 2 f_equal. lia.
Qed.

Lemma atoi_pad3 (n : Z) : 0 <= n <= 999 -> atoi (pad3 n "") = Some n.
Proof.
  intros H. destruct (hundreds n H) as [Hh [Hr He]].
  unfold atoi. unfold pad3 at 1. rewrite (digitByte_not_sign _ Hh).
  fold (pad3 n ""). rewrite leadingInt_pad3 by lia. f_equal.
Qed.

Lemma atoi_pad4 (n : Z) : 0 <= n <= 9999 -> atoi (pad4 n "") = Some n.
Proof.
  intros H. destruct (thousands n H) as [Hh [Hr He]].
  unfold atoi. unfold pad4 at 1. rewrite (digitByte_not_sign _ Hh).
  unfold pad4. rewrite leadingInt_digit by lia. rewrite leadingInt_pad3 by lia.
  f_equal. lia.
Qed.

Lemma len_cons (c : ascii) (s : string) : len (String c s) = 1 + len s.
Proof. unfold len. cbn [String.length]. lia. Qed.

Lemma len_nonneg (s : string) : 0 <= len s.
Proof. unfold len. lia. Qed.

Lemma parseElem_year (y : Z) (k : string) (f : fields) :
  0 <= y <= 9999 ->
  parseElem stdLongYear (pad4 y k) f = mkElem k (setYear f y) "" false.
Proof.
  intros H. destruct (thousands y H) as [Hh _].
  assert (E1 : (len (pad4 y k) <? 4) = false).
  { apply Z.ltb_ge. unfold pad4, pad3, pad2. rewrite !len_cons.
    pose proof (len_nonneg k). lia. }
  assert (E2 : isDigit (pad4 y k) 0 = true).
  { unfold isDigit, pad4. cbn [String.get]. now apply isDigitByte_digitByte. }
  unfold parseElem. rewrite E1, E2. cbn [orb negb].
  change (sliceTo 4 (pad4 y k)) with (pad4 y "").
  rewrite (atoi_pad4 y H). reflexivity.
Qed.

Lemma parseElem_month (m : Z) (k : string) (f : fields) :
  1 <= m <= 12 ->
  parseElem stdZeroMonth (pad2 m k) f = mkElem k (setMonth f m) "" false.
Proof.
  intros H. unfold parseElem. rewrite getnum_pad2 by lia.
  replace ((m <=? 0) || (12 <? m)) with false; [reflexivity|].
  symmetry. apply orb_false_iff. split; [apply Z.leb_gt|apply Z.ltb_ge]; lia.
Qed.

Lemma parseElem_day (d : Z) (k : string) (f : fields) :
  0 <= d <= 99 ->
  parseElem stdZeroDay (pad2 d k) f = mkElem k (setDay f d) "" false.
Proof. intros H. unfold parseElem. now rewrite getnum_pad2 by lia. Qed.

Lemma parseElem_hour (h : Z) (k : string) (f : fields) :
  0 <= h <= 23 ->
  parseElem stdHour (pad2 h k) f = mkElem k (setHour f h) "" false.
Proof.
  intros H. unfold parseElem. rewrite getnum_pad2 by lia.
  replace ((h <? 0) || (24 <=? h)) with false; [reflexivity|].
  symmetry. apply orb_false_iff. split; [apply Z.ltb_ge|apply Z.leb_gt]; lia.
Qed.

Lemma parseElem_minute (m : Z) (k : string) (f : fields) :
  0 <= m <= 59 ->
  parseElem stdZeroMinute (pad2 m k) f = mkElem k (setMin f m) "" false.
Proof.
  intros H. unfold parseElem. rewrite getnum_pad2 by lia.
  replace ((m <? 0) || (60 <=? m)) with false; [reflexivity|].
  symmetry. apply orb_false_iff. split; [apply Z.ltb_ge|apply Z.leb_gt]; lia.
Qed.

Lemma parseElem_second (s : Z) (k : string) (f : fields) :
  0 <= s <= 59 ->
  parseElem stdZeroSecond (pad2 s k) f = mkElem k (setSec f s) "" false.
Proof.
  intros H. unfold parseElem. rewrite getnum_pad2 by lia.
  replace ((s <? 0) || (60 <=? s)) with false; [reflexivity|].
  symmetry. apply orb_false_iff. split; [apply Z.ltb_ge|apply Z.leb_gt]; lia.
Qed.

Lemma parseElem_millis (ms : Z) (k : string) (f : fields) :
  0 <= ms <= 999 ->
  parseElem (stdFracSecond0 3) (String "." (pad3 ms k)) f
  = mkElem k (setNsec f (ms * 1000000)) "" false.
Proof.
  intros H.
  assert (E1 : (len (String "." (pad3 ms k)) <? Z.of_nat 4) = false).
  { apply Z.ltb_ge. unfold pad3, pad2. rewrite !len_cons.
    pose proof (len_nonneg k). lia. }
  unfold parseElem. rewrite E1. unfold parseNanoseconds.
  change (commaOrPeriod ".") with true. cbn [negb].
  change (sliceFrom 1 (sliceTo (Nat.min 4 10) (String "." (pad3 ms k)))) with (pad3 ms "").
  rewrite (atoi_pad3 ms H).
  replace (ms <? 0) with false by (symmetry; apply Z.ltb_ge; lia).
  change (sliceFrom 4 (String "." (pad3 ms k))) with k.
  change (10 ^ Z.of_nat (10 - Nat.min 4 10)) with 1000000. reflexivity.
Qed.

Lemma parseNumTZ_offset (neg : bool) (zh zm : Z) (k : string) (f : fields) :
  validOffset zh zm ->
  parseNumTZ (String (signByte neg) (pad2 zh (pad2 zm k))) f
  = mkElem k (setZoneOffset f (zoneSeconds neg zh zm)) "" false.
Proof.
  intros [Hh Hm].
  assert (E1 : (len (String (signByte neg) (pad2 zh (pad2 zm k))) <? 5) = false).
  { apply Z.ltb_ge. unfold pad2. rewrite !len_cons. pose proof (len_nonneg k). lia. }
  unfold parseNumTZ. rewrite E1.
  change (sliceTo 2 (sliceFrom 1 (String (signByte neg) (pad2 zh (pad2 zm k))))) with (pad2 zh "").
  change (sliceTo 2 (sliceFrom 3 (String (signByte neg) (pad2 zh (pad2 zm k))))) with (pad2 zm "").
  change (sliceFrom 5 (String (signByte neg) (pad2 zh (pad2 zm k)))) with k.
  change (sliceTo 1 (String (signByte neg) (pad2 zh (pad2 zm k)))) with (String (signByte neg) "").
  rewrite !getnum_pad2 by lia.
  change (getnum "00" true) with (Some (0, "")).
  cbv iota beta.
  replace (24 <? zh) with false by (symmetry; apply Z.ltb_ge; lia).
  replace (60 <? zm) with false by (symmetry; apply Z.ltb_ge; lia).
  change (60 <? 0) with false. cbv iota.
  unfold zoneSeconds. destruct neg; cbn; do 2 f_equal; lia.
Qed.

(** One element read without complaint: the loop moves on. *)
Lemma parseChunks_step (pref : string) (s : std) (stdstr : string)
    (chunks : list (string * std * string)) (value value1 value2 : string)
    (f f2 : fields) :
  skip value pref = (value1, false) ->
  parseElem s value1 f = mkElem value2 f2 "" false ->
  parseChunks ((pref, s, stdstr) :: chunks) value f = parseChunks chunks value2 f2.
Proof. intros Hs He. cbn [parseChunks]. now rewrite Hs, He. Qed.

Lemma parseChunks_app (a b : list (string * std * string)) :
  forall (value : string) (f : fields),
    parseChunks (a ++ b) value f
    = match parseChunks a value f with
      | inl (value1, f1) => parseChunks b value1 f1
      | inr e => inr e
      end.
Proof.
  induction a as [|[[pref s] stdstr] a IH]; intros value f; [reflexivity|].
  cbn [app parseChunks]. destruct (skip value pref) as [value1 [|]]; [reflexivity|].
  destruct (negb _); [reflexivity|].
  destruct (bad _); [reflexivity|]. apply IH.
Qed.

Lemma daysIn_le_31 (mo y : Z) : 1 <= mo <= 12 -> daysIn mo y <= 31.
Proof.
  intros H. unfold daysIn. destruct ((mo =? 2) && isLeap y); [lia|].
  assert (Hc : mo = 1 \/ mo = 2 \/ mo = 3 \/ mo = 4 \/ mo = 5 \/ mo = 6 \/ mo = 7
               \/ mo = 8 \/ mo = 9 \/ mo = 10 \/ mo = 11 \/ mo = 12) by lia.
  destruct Hc as [->|[->|[->|[->|[->|[->|[->|[->|[->|[->|[->| ->]]]]]]]]]]];
    vm_compute; discriminate.
Qed.

(** The date and the time of day of the wire form, read element by
    element. *)
Lemma parseChunks_dateTime (y mo d h mi s ms : Z) (k : string) :
  validDateTime y mo d h mi s ms ->
  parseChunks dateTimeChunks (wireDateTime y mo d h mi s ms k) initFields
  = inl (k, mkFields y mo d h mi s (ms * 1000000) (-1)).
Proof.
  intros (Hy & Hmo & Hd & Hh & Hmi & Hs & Hms).
  assert (Hd' : 0 <= d <= 99) by (pose proof (daysIn_le_31 mo y Hmo); lia).
  unfold dateTimeChunks, wireDateTime.
  erewrite parseChunks_step; [|reflexivity|now apply parseElem_year].
  erewrite parseChunks_step; [|reflexivity|now apply parseElem_month].
  erewrite parseChunks_step; [|reflexivity|now apply parseElem_day].
  erewrite parseChunks_step; [|reflexivity|now apply parseElem_hour].
  erewrite parseChunks_step; [|reflexivity|now apply parseElem_minute].
  erewrite parseChunks_step; [|reflexivity|now apply parseElem_second].
  erewrite parseChunks_step; [|reflexivity|now apply parseElem_millis].
  reflexivity.
Qed.

Lemma parseChunks_wireTime (y mo d h mi s ms : Z) (neg : bool) (zh zm : Z) :
  validDateTime y mo d h mi s ms -> validOffset zh zm ->
  parseChunks layoutChunks (wireTime y mo d h mi s ms neg zh zm) initFields
  = inl (String dquote "",
         mkFields y mo d h mi s (ms * 1000000) (zoneSeconds neg zh zm)).
Proof.
  intros Hdt Hz. unfold layoutChunks, wireTime.
  rewrite parseChunks_app, (parseChunks_dateTime _ _ _ _ _ _ _ _ Hdt).
  unfold zoneChunk.
  erewrite parseChunks_step; [|reflexivity|cbn [parseElem]; now apply parseNumTZ_offset].
  reflexivity.
Qed.

Lemma zoneSeconds_set (neg : bool) (zh zm : Z) :
  validOffset zh zm -> (zoneSeconds neg zh zm =? -1) = false.
Proof. intros [Hh Hm]. apply Z.eqb_neq. unfold zoneSeconds. destruct neg; lia. Qed.

(** The instant [time.Parse] makes of the wire form, up to its location. *)
Lemma Parse_wireTime (localOffset : Z -> Z) (y mo d h mi s ms : Z)
    (neg : bool) (zh zm : Z) :
  validDateTime y mo d h mi s ms -> validOffset zh zm ->
  exists l : Location,
    Parse localOffset (wireTime y mo d h mi s ms neg zh zm)
    = Ok (setLoc (addSec (Date y mo d h mi s (ms * 1000000))
                         (- zoneSeconds neg zh zm)) l).
Proof.
  intros Hdt Hz. unfold Parse.
  rewrite (parseChunks_wireTime _ _ _ _ _ _ _ neg _ _ Hdt Hz).
  change (parseTail (String dquote "")) with (@inl string (string * string * string) "").
  cbv iota beta. unfold finish.
  cbn [year month day hour min sec nsec zoneOffset].
  destruct Hdt as (Hy & Hmo & Hd & _).
  replace (mo <? 0) with false by (symmetry; apply Z.ltb_ge; lia).
  replace (d <? 0) with false by (symmetry; apply Z.ltb_ge; lia).
  replace ((d <? 1) || (daysIn mo y <? d)) with false.
  2:{ symmetry. apply orb_false_iff. split; apply Z.ltb_ge; lia. }
  rewrite (zoneSeconds_set neg zh zm Hz). cbn [negb].
  destruct (localOffset _ =? _); eexists; reflexivity.
Qed.

Lemma norm_in_range (hi lo base : Z) : 0 <= lo < base -> norm hi lo base = (hi, lo).
Proof.
  intros H. unfold norm.
  replace (lo <? 0) with false by (symmetry; apply Z.ltb_ge; lia).
  replace (base <=? lo) with false by (symmetry; apply Z.leb_gt; lia).
  reflexivity.
Qed.

(** For fields in range [time.Date] has nothing to carry: the instant is
    the count of days and seconds of the date itself. *)
Lemma Date_in_range (y mo d h mi s ns : Z) :
  1 <= mo <= 12 -> 0 <= h < 24 -> 0 <= mi < 60 -> 0 <= s < 60 ->
  0 <= ns < 1000000000 ->
  Date y mo d h mi s ns
  = mkTime ns
      ((daysSinceEpoch y + daysBeforeAt (mo - 1)
        + (if isLeap y && (3 <=? mo) then 1 else 0) + (d - 1)) * secondsPerDay
       + (h * secondsPerHour + mi * secondsPerMinute + s) + absoluteToInternal)
      UTC.
Proof.
  intros Hmo Hh Hmi Hs Hns. unfold Date.
  rewrite !norm_in_range by lia.
  replace (mo - 1 + 1) with mo by lia.
  destruct (isLeap y && (3 <=? mo)); f_equal; unfold internalToUnix; lia.
Qed.

Lemma wire_not_null (y mo d h mi s ms : Z) (k : string) :
  String.eqb (wireDateTime y mo d h mi s ms k) "null" = false.
Proof. reflexivity. Qed.

(** C5: every quoted string [YYYY-MM-DDThh:mm:ss.sss+hhmm] (or with [-])
    that writes a date of the calendar, a time of day and a zone offset
    decodes without error to the instant of that date and time at that
    offset: the seconds of [time.Date] of the fields in UTC less the
    offset, and the milliseconds as nanoseconds. *)
Theorem UnmarshalJSON_wire_time :
  forall (localOffset : Z -> Z) (t : SalesforceTime)
         (y mo d h mi s ms : Z) (neg : bool) (zh zm : Z),
    validDateTime y mo d h mi s ms ->
    validOffset zh zm ->
    exists t' : Time,
      UnmarshalJSON localOffset t (wireTime y mo d h mi s ms neg zh zm)
      = (mkSalesforceTime t', None) /\
      Equal t' (addSec (Date y mo d h mi s (ms * 1000000)) (- zoneSeconds neg zh zm))
      = true /\
      unixSec t' = unixSec (Date y mo d h mi s 0) - zoneSeconds neg zh zm /\
      wall t' = ms * 1000000.
Proof.
  intros lo t y mo d h mi s ms neg zh zm Hdt Hz.
  destruct (Parse_wireTime lo y mo d h mi s ms neg zh zm Hdt Hz) as [l Hp].
  eexists. unfold UnmarshalJSON, wireTime. rewrite wire_not_null.
  fold (wireTime y mo d h mi s ms neg zh zm). rewrite Hp.
  split; [reflexivity|].
  destruct Hdt as (Hy & Hmo & Hd & Hh & Hmi & Hs & Hms).
  rewrite !Date_in_range by lia.
  unfold Equal, unixSec, setLoc, addSec. cbn [ext wall].
  rewrite !Z.eqb_refl. repeat split. lia.
Qed.

Lemma UnmarshalJSON_wire_time_witness :
  exists t' : Time,
    UnmarshalJSON (fun _ => 0) (mkSalesforceTime zeroTime) wireExample
    = (mkSalesforceTime t', None) /\
    Equal t' (Date 2023 12 2 2 30 2 0) = true /\
    unixSec t' = 1701484202 /\
    wall t' = 0.
Proof.
  apply (UnmarshalJSON_wire_time (fun _ => 0) (mkSalesforceTime zeroTime)
           2023 12 2 2 30 2 0 false 0 0).
  - unfold validDateTime. change (daysIn 12 2023) with 31. lia.
  - unfold validOffset. lia.
Defined.

(** The example of the specification, on every host. *)
Example UnmarshalJSON_example (localOffset : Z -> Z) (t : SalesforceTime) :
  exists l : Location,
    UnmarshalJSON localOffset t wireExample
    = (mkSalesforceTime (setLoc (Date 2023 12 2 2 30 2 0) l), None).
Proof.
  destruct (Parse_wireTime localOffset 2023 12 2 2 30 2 0 false 0 0) as [l Hp].
  - unfold validDateTime. change (daysIn 12 2023) with 31. lia.
  - unfold validOffset. lia.
  - exists l. unfold UnmarshalJSON.
    change wireExample with (wireTime 2023 12 2 2 30 2 0 false 0 0).
    unfold wireTime at 1. rewrite wire_not_null.
    fold (wireTime 2023 12 2 2 30 2 0 false 0 0). rewrite Hp. reflexivity.
Qed.

(** Digits that name no date are refused: February has no 30th day. *)
Example UnmarshalJSON_day_out_of_range (localOffset : Z -> Z) (t : SalesforceTime) :
  let input := String dquote ("2023-02-30T02:30:02.000+0000" ++ String dquote "") in
  UnmarshalJSON localOffset t input
  = (t, Some (timeParseError
                (newParseError layout input "" "" ": day out of range"))).
Proof. reflexivity. Qed.

(** ** Time codec: what a successful parse has read *)

Lemma tailOf_refl (s : string) : tailOf s s.
Proof. now exists "". Qed.

Lemma tailOf_cons (c : ascii) (s t : string) : tailOf s t -> tailOf (String c s) t.
Proof. intros [p ->]. now exists (String c p). Qed.

Lemma tailOf_trans (a b c : string) : tailOf a b -> tailOf b c -> tailOf a c.
Proof. intros [p ->] [q ->]. exists (p ++ q). now rewrite append_assoc. Qed.

Lemma tailOf_sliceFrom (n : nat) (s : string) : tailOf s (sliceFrom n s).
Proof.
  revert s. induction n as [|n IH]; intros s; [apply tailOf_refl|].
  destruct s as [|c s]; [apply tailOf_refl|]. cbn [sliceFrom]. apply tailOf_cons, IH.
Qed.

Lemma getnum_tailOf (s s' : string) (fixed : bool) (n : Z) :
  getnum s fixed = Some (n, s') -> tailOf s s'.
Proof.
  unfold getnum. destruct s as [|c0 [|c1 s1]]; [discriminate| |].
  - destruct (negb _); [discriminate|]. destruct fixed; [discriminate|].
    intros [= _ <-]. apply tailOf_cons, tailOf_refl.
  - destruct (negb _); [discriminate|]. destruct (isDigitByte c1).
    + intros [= _ <-]. apply tailOf_cons, tailOf_cons, tailOf_refl.
    + destruct fixed; [discriminate|]. intros [= _ <-]. apply tailOf_cons, tailOf_refl.
Qed.

Lemma parseNumTZ_tailOf (value : string) (f : fields) :
  tailOf value (rest (parseNumTZ value f)).
Proof.
  unfold parseNumTZ. destruct (len value <? 5); [apply tailOf_refl|].
  destruct (getnum (sliceTo 2 (sliceFrom 1 value)) true) as [[hr ?]|];
    [destruct (getnum (sliceTo 2 (sliceFrom 3 value)) true) as [[mm ?]|]|];
    cbv iota beta;
    destruct (getnum "00" true) as [[ss ?]|];
    destruct (String.eqb (sliceTo 1 value) "+"); try apply tailOf_sliceFrom;
    destruct (String.eqb (sliceTo 1 value) "-"); apply tailOf_sliceFrom.
Qed.

Lemma parseElem_tailOf (s : std) (value : string) (f : fields) :
  tailOf value (rest (parseElem s value f)).
Proof.
  destruct s; cbn [parseElem];
    try (destruct (getnum value _) as [[n value']|] eqn:E;
         [eapply getnum_tailOf; exact E|apply tailOf_refl]).
  - destruct (_ || _); [apply tailOf_refl|].
    destruct (atoi _); apply tailOf_sliceFrom.
  - destruct (_ <? _); [apply tailOf_refl|].
    destruct (parseNanoseconds _ _) as [[ns r] e]. apply tailOf_sliceFrom.
  - apply parseNumTZ_tailOf.
Qed.

Lemma skip_tailOf (pref : string) :
  forall (value value1 : string) (b : bool),
    skip value pref = (value1, b) -> tailOf value value1.
Proof.
  induction pref as [|p pref IH]; intros value value1 b; cbn [skip].
  - intros [= <- _]. apply tailOf_refl.
  - destruct value as [|v value]; [intros [= <- _]; apply tailOf_refl|].
    destruct (Ascii.eqb v p).
    + intros H. apply tailOf_cons. eapply IH, H.
    + intros [= <- _]. apply tailOf_refl.
Qed.

Lemma parseChunks_tailOf (chunks : list (string * std * string)) :
  forall (value value1 : string) (f f1 : fields),
    parseChunks chunks value f = inl (value1, f1) -> tailOf value value1.
Proof.
  induction chunks as [|[[pref s] stdstr] chunks IH]; intros value value1 f f1;
    cbn [parseChunks].
  - intros [= <- _]. apply tailOf_refl.
  - destruct (skip value pref) as [v [|]] eqn:Es; [discriminate|].
    destruct (negb _); [discriminate|]. destruct (bad _); [discriminate|].
    intros H. eapply tailOf_trans; [eapply skip_tailOf, Es|].
    eapply tailOf_trans; [apply parseElem_tailOf|]. eapply IH, H.
Qed.

Lemma getnum_two_digits (a b : ascii) (n : Z) (s : string) :
  getnum (String a (String b "")) true = Some (n, s) ->
  isDigitByte a = true /\ isDigitByte b = true.
Proof.
  unfold getnum. destruct (isDigitByte a); [|discriminate].
  destruct (isDigitByte b); [auto|discriminate].
Qed.

(** A zone offset that is accepted is a sign and four decimal digits. *)
Lemma parseNumTZ_accepts (value : string) (f : fields) :
  bad (parseNumTZ value f) = false ->
  exists sg a b c d,
    value = String sg (String a (String b (String c (String d
              (rest (parseNumTZ value f)))))) /\
    isDigitByte b = true /\ isDigitByte c = true /\ isDigitByte d = true.
Proof.
  destruct value as [|sg [|a [|b [|c [|d k]]]]]; try discriminate.
  unfold parseNumTZ.
  assert (E : (len (String sg (String a (String b (String c (String d k))))) <? 5)
              = false).
  { apply Z.ltb_ge. rewrite !len_cons. pose proof (len_nonneg k). lia. }
  rewrite E.
  change (sliceTo 2 (sliceFrom 1 (String sg (String a (String b (String c (String d k)))))))
    with (String a (String b "")).
  change (sliceTo 2 (sliceFrom 3 (String sg (String a (String b (String c (String d k)))))))
    with (String c (String d "")).
  change (sliceFrom 5 (String sg (String a (String b (String c (String d k)))))) with k.
  destruct (getnum (String a (String b "")) true) as [[hr s1]|] eqn:E1.
  - destruct (getnum (String c (String d "")) true) as [[mm s2]|] eqn:E2.
    + intros _. apply getnum_two_digits in E1, E2.
      exists sg, a, b, c, d. split; [|tauto].
      cbv iota beta. destruct (getnum "00" true) as [[ss ?]|];
        destruct (String.eqb _ "+"); try reflexivity;
        destruct (String.eqb _ "-"); reflexivity.
    + cbv iota beta. destruct (String.eqb _ "+"); [discriminate|].
      destruct (String.eqb _ "-"); discriminate.
  - cbv iota beta. destruct (String.eqb _ "+"); [discriminate|].
    destruct (String.eqb _ "-"); discriminate.
Qed.

Lemma parseTail_accepts (value value1 : string) :
  parseTail value = inl value1 -> value = String dquote "".
Proof.
  unfold parseTail, layoutTail. cbn [skip].
  destruct value as [|v value]; [discriminate|].
  destruct (Ascii.eqb_spec v dquote) as [->|]; [|discriminate].
  destruct value as [|w value]; [reflexivity|].
  rewrite len_cons.
  replace (1 + len value =? 0) with false; [discriminate|].
  symmetry. apply Z.eqb_neq. pose proof (len_nonneg value). lia.
Qed.

(** An input that [time.Parse] accepts ends in a sign, four decimal
    digits (the last three are read here) and the closing quote. *)
Lemma Parse_accepts (localOffset : Z -> Z) (value : string) (t : Time) :
  Parse localOffset value = Ok t ->
  exists p sg a b c d,
    value = p ++ String sg (String a (String b (String c (String d
                   (String dquote ""))))) /\
    isDigitByte b = true /\ isDigitByte c = true /\ isDigitByte d = true.
Proof.
  unfold Parse, layoutChunks. rewrite parseChunks_app.
  destruct (parseChunks dateTimeChunks value initFields) as [[v7 f7]|[[? ?] ?]] eqn:E7;
    [|discriminate].
  apply parseChunks_tailOf in E7. destruct E7 as [p ->].
  unfold zoneChunk. cbn [parseChunks skip parseElem].
  destruct (negb _); [destruct (rest _); discriminate|].
  destruct (bad (parseNumTZ v7 f7)) eqn:Eb; [discriminate|].
  destruct (parseNumTZ_accepts v7 f7 Eb) as (sg & a & b & c & d & Ev & Hb & Hc & Hd).
  destruct (parseTail (rest (parseNumTZ v7 f7))) as [v2|[[? ?] ?]] eqn:Et; [|discriminate].
  apply parseTail_accepts in Et. rewrite Et in Ev.
  intros _. exists p, sg, a, b, c, d. rewrite Ev at 1. tauto.
Qed.

(** Every failure of [time.Parse] is a ParseError that carries the layout
    and the input. *)
Lemma Parse_fails (localOffset : Z -> Z) (value : string) (e : error) :
  Parse localOffset value = Err e ->
  exists le ve msg, e = timeParseError (newParseError layout value le ve msg).
Proof.
  unfold Parse.
  destruct (parseChunks layoutChunks value initFields) as [[v f]|[[le ve] msg]].
  - destruct (parseTail v) as [v2|[[le ve] msg]].
    + destruct (finish localOffset v2 f) as [t|[[le ve] msg]]; [discriminate|].
      intros [= <-]. eauto.
    + intros [= <-]. eauto.
  - intros [= <-]. eauto.
Qed.

Lemma append_inj_last (p q : string) (a b : ascii) :
  p ++ String a "" = q ++ String b "" -> p = q /\ a = b.
Proof.
  revert q. induction p as [|x p IH]; intros [|y q]; rewrite ?append_cons.
  - intros [= ->]. auto.
  - destruct q; discriminate.
  - destruct p; discriminate.
  - intros [= -> H]. destruct (IH q H) as [-> ->]. auto.
Qed.

Lemma append_inj_last2 (p q : string) (a a' b b' : ascii) :
  p ++ String a (String a' "") = q ++ String b (String b' "") ->
  p = q /\ a = b /\ a' = b'.
Proof.
  change (String a (String a' "")) with (String a "" ++ String a' "").
  change (String b (String b' "")) with (String b "" ++ String b' "").
  rewrite <- !append_assoc. intros H.
  apply append_inj_last in H as [H ->]. apply append_inj_last in H as [-> ->]. auto.
Qed.

(** ** Time codec: the ISO forms of the zone are refused *)

Lemma parseChunks_zone_Z (f : fields) :
  parseChunks [zoneChunk] (String "Z" (String dquote "")) f
  = inr ("-0700", String "Z" (String dquote ""), "").
Proof. reflexivity. Qed.

Lemma parseChunks_zone_colon (neg : bool) (zh zm : Z) (f : fields) :
  validOffset zh zm ->
  parseChunks [zoneChunk] (colonOffset neg zh zm) f
  = inr ("-0700", colonOffset neg zh zm, "").
Proof.
  intros [Hh Hm]. destruct (tens_units zm ltac:(lia)) as [Ht _].
  unfold zoneChunk. cbn [parseChunks skip parseElem].
  assert (E1 : (len (colonOffset neg zh zm) <? 5) = false).
  { apply Z.ltb_ge. unfold colonOffset, pad2. rewrite !len_cons.
    pose proof (len_nonneg ""). lia. }
  unfold parseNumTZ. rewrite E1.
  change (sliceTo 2 (sliceFrom 1 (colonOffset neg zh zm))) with (pad2 zh "").
  change (sliceTo 2 (sliceFrom 3 (colonOffset neg zh zm)))
    with (String ":" (String (digitByte (zm / 10)) "")).
  rewrite getnum_pad2 by lia.
  change (getnum (String ":" (String (digitByte (zm / 10)) "")) true)
    with (@None (Z * string)).
  cbv iota beta.
  replace (24 <? zh) with false by (symmetry; apply Z.ltb_ge; lia).
  change (60 <? 0) with false. cbv iota.
  destruct (String.eqb _ "+"); [reflexivity|].
  destruct (String.eqb _ "-"); reflexivity.
Qed.

Lemma not_null_last (body : string) (c : ascii) :
  c <> "l"%char -> String.eqb (body ++ String c "") "null" = false.
Proof.
  intros Hc. apply String.eqb_neq. intros H.
  change "null" with ("nul" ++ String "l" "") in H.
  apply append_inj_last in H as [_ H]. contradiction.
Qed.

(** An input that ends in [Z] and the quote, or in a colon, two bytes and
    the quote, fails to parse, whatever comes before. *)
Lemma Parse_refuses_Z (localOffset : Z -> Z) (body : string) :
  exists e, Parse localOffset (body ++ String "Z" (String dquote "")) = Err e.
Proof.
  destruct (Parse _ _) as [t|e] eqn:E; [|eauto].
  apply Parse_accepts in E as (p & sg & a & b & c & d & E & _ & _ & Hd).
  change (String sg (String a (String b (String c (String d (String dquote ""))))))
    with (String sg (String a (String b (String c ""))) ++ String d (String dquote ""))
    in E.
  rewrite <- (append_assoc p) in E.
  apply append_inj_last2 in E as (_ & <- & _). discriminate.
Qed.

Lemma Parse_refuses_colon (localOffset : Z -> Z) (body : string) (m1 m2 : ascii) :
  exists e,
    Parse localOffset (body ++ String ":" (String m1 (String m2 (String dquote ""))))
    = Err e.
Proof.
  destruct (Parse _ _) as [t|e] eqn:E; [|eauto].
  apply Parse_accepts in E as (p & sg & a & b & c & d & E & Hb & _ & _).
  change (String sg (String a (String b (String c (String d (String dquote ""))))))
    with (String sg (String a (String b (String c ""))) ++ String d (String dquote ""))
    in E.
  change (String ":" (String m1 (String m2 (String dquote ""))))
    with (String ":" (String m1 "") ++ String m2 (String dquote "")) in E.
  rewrite <- !append_assoc in E.
  apply append_inj_last2 in E as (E & _ & _).
  change (String sg (String a (String b (String c ""))))
    with (String sg (String a "") ++ String b (String c "")) in E.
  rewrite <- !append_assoc in E.
  apply append_inj_last2 in E as (_ & <- & _). discriminate.
Qed.

Lemma UnmarshalJSON_parse_error (localOffset : Z -> Z) (t : SalesforceTime)
    (b : string) (e : error) :
  String.eqb b "null" = false ->
  Parse localOffset b = Err e ->
  exists le ve msg,
    UnmarshalJSON localOffset t b
    = (t, Some (timeParseError (newParseError layout b le ve msg))).
Proof.
  intros Hn Hp. destruct (Parse_fails _ _ _ Hp) as (le & ve & msg & ->).
  exists le, ve, msg. unfold UnmarshalJSON. now rewrite Hn, Hp.
Qed.

(** C4: an input whose zone is written the ISO way, as the suffix [Z] or
    as an offset with a colon, is refused with a ParseError that carries
    the layout and the input.  After a date and time of the wire form the
    error names the element that does not match: the zone text of the
    input against the layout element [-0700].  The receiver is left as it
    was. *)
Theorem UnmarshalJSON_rejects_iso_zones :
  forall (localOffset : Z -> Z) (t : SalesforceTime)
         (y mo d h mi s ms : Z) (neg : bool) (zh zm : Z),
    validDateTime y mo d h mi s ms ->
    validOffset zh zm ->
    UnmarshalJSON localOffset t (wireTimeZ y mo d h mi s ms)
    = (t, Some (timeParseError
                  (newParseError layout (wireTimeZ y mo d h mi s ms)
                     "-0700" (String "Z" (String dquote "")) ""))) /\
    UnmarshalJSON localOffset t (wireTimeColon y mo d h mi s ms neg zh zm)
    = (t, Some (timeParseError
                  (newParseError layout (wireTimeColon y mo d h mi s ms neg zh zm)
                     "-0700" (colonOffset neg zh zm) ""))) /\
    (forall body : string,
        let input := body ++ String "Z" (String dquote "") in
        exists le ve msg,
          UnmarshalJSON localOffset t input
          = (t, Some (timeParseError (newParseError layout input le ve msg)))) /\
    (forall (body : string) (m1 m2 : ascii),
        let input := body ++ String ":" (String m1 (String m2 (String dquote ""))) in
        exists le ve msg,
          UnmarshalJSON localOffset t input
          = (t, Some (timeParseError (newParseError layout input le ve msg)))).
Proof.
  intros lo t y mo d h mi s ms neg zh zm Hdt Hz. repeat split.
  - unfold UnmarshalJSON, wireTimeZ. rewrite wire_not_null.
    unfold Parse, layoutChunks.
    rewrite parseChunks_app, (parseChunks_dateTime _ _ _ _ _ _ _ _ Hdt).
    now rewrite parseChunks_zone_Z.
  - unfold UnmarshalJSON, wireTimeColon. rewrite wire_not_null.
    unfold Parse, layoutChunks.
    rewrite parseChunks_app, (parseChunks_dateTime _ _ _ _ _ _ _ _ Hdt).
    now rewrite (parseChunks_zone_colon neg zh zm _ Hz).
  - intros body input. destruct (Parse_refuses_Z lo body) as [e He].
    apply (UnmarshalJSON_parse_error lo t input e); [|exact He].
    subst input.
    change (String "Z" (String dquote "")) with (String "Z" "" ++ String dquote "").
    rewrite <- append_assoc. now apply not_null_last.
  - intros body m1 m2 input. destruct (Parse_refuses_colon lo body m1 m2) as [e He].
    apply (UnmarshalJSON_parse_error lo t input e); [|exact He].
    subst input.
    change (String ":" (String m1 (String m2 (String dquote ""))))
      with (String ":" (String m1 (String m2 "")) ++ String dquote "").
    rewrite <- append_assoc. now apply not_null_last.
Qed.

Lemma UnmarshalJSON_rejects_iso_zones_witness :
  UnmarshalJSON (fun _ => 0) someTime wireExampleZ
  = (someTime, Some (timeParseError
       (newParseError layout wireExampleZ "-0700" (String "Z" (String dquote "")) ""))) /\
  UnmarshalJSON (fun _ => 0) someTime wireExampleColon
  = (someTime, Some (timeParseError
       (newParseError layout wireExampleColon "-0700" ("+00:00" ++ String dquote "") ""))).
Proof.
  destruct (UnmarshalJSON_rejects_iso_zones (fun _ => 0) someTime
              2023 12 2 2 30 2 0 false 0 0) as (Hz & Hc & _).
  - unfold validDateTime. change (daysIn 12 2023) with 31. lia.
  - unfold validOffset. lia.
  - split; [exact Hz|exact Hc].
Defined.

(** ** Result sets and deletion *)

(** C1: the continuation token never reaches the request: for every token
    [GetResultSet] builds the request it builds for the empty token, and
    the whole call behaves as it does for the empty token. *)
Theorem GetResultSet_ignores_locator :
  forall (W : World) (job : BulkJob) (locator : string) (tr : list Event),
    resultSetRequest W job locator = resultSetRequest W job "" /\
    GetResultSet W job locator tr = GetResultSet W job "" tr.
Proof. intros. split; reflexivity. Qed.

Lemma contains_intro (pre sub post : string) : contains (pre ++ sub ++ post) sub.
Proof. exists pre, post. reflexivity. Qed.

(** The text of a status error names the status line and the body. *)
Lemma status_error_text (what status body : string) :
  let msg := what ++ status ++ " body(" ++ body ++ ")" in
  contains msg status /\ contains msg body.
Proof.
  intros msg. subst msg. split.
  - apply contains_intro.
  - exists (what ++ status ++ " body("), ")".
    now rewrite !append_assoc.
Qed.

(** C8: when the server answers the results request with a status of 400
    or more, [GetResultSet] fails with an error whose text contains the
    status line and the body text; when it answers the request of [Delete]
    with such a status, [Delete] fails in the same way, and with a status
    below 400 [Delete] returns nil.  Each of the three holds on its own,
    for every world, history and response. *)
Theorem status_errors_carry_status_and_body :
  forall (W : World) (job : BulkJob) (locator : string) (tr : list Event)
         (resp : Response),
    (answers W tr (resultSetRequest W job locator) resp ->
     400 <= StatusCode resp ->
     exists msg,
       fst (GetResultSet W job locator tr) = Returns (Err (errorString msg)) /\
       contains msg (Status resp) /\ contains msg (data (RespBody resp))) /\
    (answers W tr (deleteRequest W job) resp ->
     400 <= StatusCode resp ->
     exists msg,
       fst (Delete W job tr) = Some (errorString msg) /\
       contains msg (Status resp) /\ contains msg (data (RespBody resp))) /\
    (answers W tr (deleteRequest W job) resp ->
     StatusCode resp < 400 ->
     fst (Delete W job tr) = None).
Proof.
  intros W job locator tr resp. split; [|split].
  - intros [req [Hr Hd]] Hc. unfold GetResultSet. rewrite Hr, Hd.
    apply Z.leb_le in Hc. rewrite Hc. simpl.
    eexists. split; [reflexivity|]. apply status_error_text.
  - intros [req [Hr Hd]] Hc. unfold Delete. rewrite Hr, Hd.
    apply Z.leb_le in Hc. rewrite Hc. simpl.
    eexists. split; [reflexivity|]. apply status_error_text.
  - intros [req [Hr Hd]] Hc. unfold Delete. rewrite Hr, Hd.
    apply Z.leb_gt in Hc. now rewrite Hc.
Qed.

Lemma status_errors_carry_status_and_body_witness :
  (exists msg,
      fst (GetResultSet boomWorld mockJob "" []) = Returns (Err (errorString msg)) /\
      contains msg "500 Internal Server Error" /\ contains msg "boom") /\
  (exists msg,
      fst (Delete goneWorld mockJob []) = Some (errorString msg) /\
      contains msg "404 Not Found" /\ contains msg "NOT_FOUND") /\
  fst (Delete boomWorld mockJob []) = None.
Proof.
  split; [|split].
  - apply (status_errors_carry_status_and_body boomWorld mockJob "" []
             (mockResponse 500 "500 Internal Server Error" ∅ "boom")).
    + eexists. split; reflexivity.
    + simpl. lia.
  - apply (status_errors_carry_status_and_body goneWorld mockJob "" []
             (mockResponse 404 "404 Not Found" ∅ "NOT_FOUND")).
    + eexists. split; reflexivity.
    + simpl. lia.
  - apply (status_errors_carry_status_and_body boomWorld mockJob "" []
             (mockResponse 204 "204 No Content" ∅ "")).
    + eexists. split; reflexivity.
    + simpl. lia.
Defined.

(** A page of results: what [GetResultSet] returns on an answer below 400
    for which the buffer can be made and whose body reads to the end. *)
Lemma GetResultSet_page (W : World) (job : BulkJob) (locator : string)
    (tr : list Event) (resp : Response) :
  answers W tr (resultSetRequest W job locator) resp ->
  StatusCode resp < 400 ->
  presize W resp = Returns tt ->
  readErr (RespBody resp) = None ->
  fst (GetResultSet W job locator tr)
  = Returns (Ok (mkBulkJobResultSet (data (RespBody resp))
                   (Header_Get (Header resp) "Sforce-Locator")
                   (fst (Atoi (Header_Get (Header resp) "Sforce-NumberOfRecords"))))).
Proof.
  intros [req [Hr Hd]] Hc Hp He. unfold GetResultSet. rewrite Hr, Hd.
  apply Z.leb_gt in Hc. rewrite Hc, Hp. unfold io_Copy. rewrite He.
  now destruct (Atoi _).
Qed.

Lemma Header_Get_absent (h : gmap string (list string)) (key : string) :
  h !! CanonicalMIMEHeaderKey key = None -> Header_Get h key = "".
Proof. intros H. unfold Header_Get. now rewrite H. Qed.

Lemma atoiFast_syntax (s : string) :
  forall n, snd (atoiFast s n) = Some ErrSyntax -> fst (atoiFast s n) = 0.
Proof.
  induction s as [|c s IH]; intros n; simpl; [discriminate|].
  destruct (isDigitByte c); simpl; auto.
Qed.

(** A header that is no number at all (a syntax error of strconv.Atoi,
    the empty string included) counts as zero rows. *)
Lemma Atoi_syntax_zero (s : string) :
  snd (Atoi s) = Some ErrSyntax -> fst (Atoi s) = 0.
Proof.
  unfold Atoi. destruct ((0 <? len s) && (len s <? 19)).
  - destruct s as [|c s]; [reflexivity|].
    destruct (Ascii.eqb c "-" || Ascii.eqb c "+").
    + destruct (len s <? 1); [reflexivity|].
      pose proof (atoiFast_syntax s 0) as H.
      destruct (atoiFast s 0) as [n [[]|]]; simpl in *; auto; discriminate.
    + apply atoiFast_syntax.
  - unfold ParseInt. destruct s as [|c s]; [reflexivity|].
    destruct (if Ascii.eqb c "+" then _ else _) as [neg s1].
    destruct (ParseUint s1) as [un [[]|]]; simpl; auto.
    + destruct (negb neg && _); [discriminate|].
      destruct (neg && _); discriminate.
    + destruct (negb neg && _); [discriminate|].
      destruct (neg && _); discriminate.
Qed.

(** C9: a record count beyond the range of int is an unparsable header
    (strconv.Atoi reports a range error), and the page then reports the
    largest int as its row count, not zero. *)
Theorem GetResultSet_rows_out_of_range :
  snd (Atoi "9223372036854775808") = Some ErrRange /\
  fst (GetResultSet
         (pageWorld (Header_Add ∅ "Sforce-NumberOfRecords" "9223372036854775808") "Id")
         mockJob "" [])
  = Returns (Ok (mkBulkJobResultSet "Id" "" 9223372036854775807)).
Proof. split; vm_compute; reflexivity. Qed.

(** The page of the specification's example: 42 rows, next page tok123. *)
Lemma GetResultSet_page_example :
  fst (GetResultSet
         (pageWorld (Header_Add (Header_Add ∅ "Sforce-NumberOfRecords" "42")
                                "Sforce-Locator" "tok123") "Id")
         mockJob "" [])
  = Returns (Ok (mkBulkJobResultSet "Id" "tok123" 42)).
Proof. vm_compute. reflexivity. Qed.

(** ** The status poller *)

Lemma fetches_app (a b : list Event) :
  fetches (a ++ b) = (fetches a + fetches b)%nat.
Proof. unfold fetches. now rewrite filter_app, length_app. Qed.

Lemma sleeps_app (a b : list Event) : sleeps (a ++ b) = (sleeps a ++ sleeps b)%list.
Proof. apply omap_app. Qed.

Section Poller.

Variables (W : World) (job : BulkJob) (ctx : Context).

Lemma GetStatus_trace (tr : list Event) :
  snd (GetStatus W job tr) = (tr ++ [EvHttpRequest "GET" (statusURL job)])%list.
Proof.
  unfold GetStatus, statusURL.
  destruct (httpRequest W tr _ _) as [b|e]; [|reflexivity].
  destruct (json_Unmarshal W b); reflexivity.
Qed.

Lemma nonTerminal_not_finished (s : JobStateEnum) :
  nonTerminal s -> IsFinished s = false.
Proof. intros [-> | ->]; reflexivity. Qed.

Lemma polls_tail (tr0 tr0' : list Event) (s : JobStateEnum)
    (states : list JobStateEnum) :
  fetches tr0' = S (fetches tr0) ->
  polls W job tr0 (s :: states) -> polls W job tr0' states.
Proof.
  intros Hf Hp tr i s' Htr Hs. apply (Hp tr (S i) s'); [lia|exact Hs].
Qed.

(** One turn of the loop on a state that is not finished: a fetch, a
    sleep of ten seconds, and the loop again. *)
Lemma Wait_step (fuel : nat) (tr : list Event) (st : BulkJobStatus) :
  ctx tr = None ->
  fst (GetStatus W job tr) = Ok st ->
  IsFinished (State st) = false ->
  Wait W job ctx (S fuel) tr
  = Wait W job ctx fuel
      (tr ++ [EvHttpRequest "GET" (statusURL job); EvSleep (10 * Second)])%list.
Proof.
  intros Hc Hg Hf. simpl Wait. rewrite Hc.
  pose proof (GetStatus_trace tr) as Ht.
  destruct (GetStatus W job tr) as [r tr1]. simpl in Hg, Ht. subst r tr1.
  rewrite Hf. now rewrite <- app_assoc.
Qed.

Lemma fetches_turns (k : nat) : fetches (turns job k) = k.
Proof.
  induction k as [|k IH]; [reflexivity|].
  change (turns job (S k))
    with ([EvHttpRequest "GET" (statusURL job); EvSleep (10 * Second)] ++ turns job k)%list.
  rewrite fetches_app, IH. reflexivity.
Qed.

Lemma sleeps_turns (k : nat) :
  sleeps (turns job k) = repeat (10 * Second) k.
Proof.
  induction k as [|k IH]; [reflexivity|].
  change (turns job (S k))
    with ([EvHttpRequest "GET" (statusURL job); EvSleep (10 * Second)] ++ turns job k)%list.
  rewrite sleeps_app, IH. reflexivity.
Qed.

(** The loop over a run of states that are not finished, while the
    signal stays silent: one fetch and one sleep of ten seconds each. *)
Lemma Wait_prefix (states : list JobStateEnum) :
  forall tr0 : list Event,
    Forall nonTerminal states ->
    polls W job tr0 states ->
    (forall tr i, fetches tr = (fetches tr0 + i)%nat ->
                  (i < length states)%nat -> ctx tr = None) ->
    forall fuel,
      Wait W job ctx (length states + fuel) tr0
      = Wait W job ctx fuel (tr0 ++ turns job (length states)).
Proof.
  induction states as [|s states IH]; intros tr0 Hnt Hp Hc fuel.
  - simpl. now rewrite app_nil_r.
  - inversion Hnt as [|? ? Hs Hnt']; subst.
    destruct (Hp tr0 0%nat s) as [st [Hg Hst]]; [lia|reflexivity|].
    set (step := [EvHttpRequest "GET" (statusURL job); EvSleep (10 * Second)]).
    assert (Hf : fetches (tr0 ++ step) = S (fetches tr0)).
    { rewrite fetches_app. unfold step, fetches. simpl. lia. }
    simpl length. rewrite Nat.add_succ_l.
    rewrite (Wait_step _ tr0 st);
      [|apply (Hc tr0 0%nat); simpl; lia|exact Hg
       |rewrite Hst; now apply nonTerminal_not_finished].
    fold step. rewrite (IH (tr0 ++ step)%list Hnt').
    + change (turns job (S (length states)))
        with (step ++ turns job (length states))%list.
      now rewrite app_assoc.
    + eapply polls_tail; eauto.
    + intros tr i Htr Hi. apply (Hc tr (S i)); simpl; lia.
Qed.

(** The last turn: a finished state ends the loop with its outcome. *)
Lemma Wait_finished (fuel : nat) (tr : list Event) (st : BulkJobStatus) :
  ctx tr = None ->
  fst (GetStatus W job tr) = Ok st ->
  IsFinished (State st) = true ->
  Wait W job ctx (S fuel) tr
  = Some (ToError (State st), (tr ++ [EvHttpRequest "GET" (statusURL job)])%list).
Proof.
  intros Hc Hg Hf. simpl Wait. rewrite Hc.
  pose proof (GetStatus_trace tr) as Ht.
  destruct (GetStatus W job tr) as [r tr1]. simpl in Hg, Ht. subst r tr1.
  now rewrite Hf.
Qed.

Lemma polls_app_l (tr0 : list Event) (states more : list JobStateEnum) :
  polls W job tr0 (states ++ more) -> polls W job tr0 states.
Proof.
  intros Hp tr i s Htr Hs. apply (Hp tr i s Htr).
  now apply lookup_app_l_Some.
Qed.

End Poller.

(** C2: when the first k polled states are UploadComplete or InProgress,
    the next one is finished and the signal is never triggered, [Wait]
    returns ToError of the finished state after k turns of a fetch and a
    sleep and one last fetch: exactly k+1 status fetches and exactly k
    sleeps of ten seconds each, whatever the loop bound above k. *)
Theorem Wait_polls_until_finished :
  forall (W : World) (job : BulkJob) (ctx : Context)
         (states : list JobStateEnum) (final : JobStateEnum)
         (tr0 : list Event) (fuel : nat),
    Forall nonTerminal states ->
    IsFinished final = true ->
    (forall tr, ctx tr = None) ->
    polls W job tr0 (states ++ [final]) ->
    (length states < fuel)%nat ->
    let tr1 := (turns job (length states) ++ [EvHttpRequest "GET" (statusURL job)])%list in
    Wait W job ctx fuel tr0 = Some (ToError final, (tr0 ++ tr1)%list) /\
    fetches tr1 = S (length states) /\
    sleeps tr1 = repeat (10 * Second) (length states).
Proof.
  intros W job ctx states final tr0 fuel Hnt Hfin Hctx Hp Hfuel tr1. subst tr1.
  split; [|split].
  - replace fuel with (length states + S (fuel - S (length states)))%nat by lia.
    rewrite (Wait_prefix W job ctx states tr0 Hnt);
      [|eapply polls_app_l; eauto|intros; apply Hctx].
    destruct (Hp (tr0 ++ turns job (length states))%list (length states) final)
      as [st [Hg Hst]].
    + rewrite fetches_app, fetches_turns. lia.
    + rewrite lookup_app_r by lia. now rewrite Nat.sub_diag.
    + rewrite (Wait_finished W job ctx _ _ st);
        [|apply Hctx|exact Hg|now rewrite Hst].
      now rewrite Hst, app_assoc.
  - rewrite fetches_app, fetches_turns. unfold fetches. simpl. lia.
  - rewrite sleeps_app, sleeps_turns. simpl. now rewrite app_nil_r.
Qed.

Lemma pollWorld_polls (bodies : list string) :
  polls (pollWorld bodies) mockJob [] bodies.
Proof.
  intros tr i s Hf Hs. simpl in Hf.
  exists (mkBulkJobStatus s 0 0 0). split; [|reflexivity].
  unfold GetStatus, pollWorld. cbn [httpRequest json_Unmarshal].
  unfold JobStateEnum in *. now rewrite Hf, Hs.
Qed.

Lemma Wait_polls_until_finished_witness :
  Wait (pollWorld ["InProgress"; "InProgress"; "JobComplete"]) mockJob neverDone 3 []
  = Some (None, [statusGet; EvSleep 10000000000; statusGet; EvSleep 10000000000;
                 statusGet]) /\
  fetches [statusGet; EvSleep 10000000000; statusGet; EvSleep 10000000000; statusGet]
  = 3%nat /\
  sleeps [statusGet; EvSleep 10000000000; statusGet; EvSleep 10000000000; statusGet]
  = [10000000000; 10000000000].
Proof.
  apply (Wait_polls_until_finished
           (pollWorld ["InProgress"; "InProgress"; "JobComplete"]) mockJob neverDone
           [InProgress; InProgress] JobComplete [] 3).
  - repeat constructor; right; reflexivity.
  - reflexivity.
  - reflexivity.
  - apply pollWorld_polls.
  - simpl. lia.
Defined.

(** Failed on the first poll: the job-failed error after one fetch and no
    sleep. *)
Example Wait_failed_on_first_poll :
  Wait (pollWorld ["Failed"]) mockJob neverDone 1 []
  = Some (Some (errorString "job failed"), [statusGet]).
Proof. reflexivity. Qed.

(** ** The status poller: every run *)

Section PollerRuns.

Variables (W : World) (job : BulkJob) (ctx : Context).

Lemma turns_succ_l (tr : list Event) (k : nat) :
  ((tr ++ [EvHttpRequest "GET" (statusURL job); EvSleep (10 * Second)]) ++ turns job k = tr ++ turns job (S k))%list.
Proof. now rewrite <- app_assoc. Qed.

(** How a run of [Wait] ends: after some number of turns on states that
    were not finished, the signal is triggered, or the fetch fails, or the
    state fetched is finished. *)
Lemma Wait_outcome (fuel : nat) :
  forall (tr tr' : list Event) (r : option error),
    Wait W job ctx fuel tr = Some (r, tr') ->
    exists k : nat,
      (k < fuel)%nat /\
      let trk := (tr ++ turns job k)%list in
      (exists e, ctx trk = Some e /\ r = Some (contextError e) /\ tr' = trk) \/
      (ctx trk = None /\ tr' = (trk ++ [EvHttpRequest "GET" (statusURL job)])%list /\
       ((exists err, fst (GetStatus W job trk) = Err err /\ r = Some err) \/
        (exists st, fst (GetStatus W job trk) = Ok st /\
                    IsFinished (State st) = true /\ r = ToError (State st)))).
Proof.
  induction fuel as [|fuel IH]; intros tr tr' r; [discriminate|].
  cbn [Wait]. pose proof (GetStatus_trace W job tr) as Ht.
  destruct (ctx tr) as [e|] eqn:Hc.
  - intros [= <- <-]. exists 0%nat. split; [lia|]. cbn [turns]. rewrite app_nil_r.
    left. eauto.
  - destruct (GetStatus W job tr) as [[st|err] tr1] eqn:Hg; cbn [snd] in Ht; subst tr1.
    + destruct (IsFinished (State st)) eqn:Hf.
      * intros [= <- <-]. exists 0%nat. split; [lia|]. cbn [turns]. rewrite app_nil_r.
        right. rewrite Hg. cbn [fst]. repeat split; eauto.
      * intros H. rewrite <- app_assoc in H. cbn [app] in H.
        apply IH in H as [k [Hk H]]. exists (S k). split; [lia|].
        cbv zeta in H |- *. rewrite turns_succ_l in H. exact H.
    + intros [= <- <-]. exists 0%nat. split; [lia|]. cbn [turns]. rewrite app_nil_r.
      right. rewrite Hg. cbn [fst]. repeat split; eauto.
Qed.

End PollerRuns.

(** A context error out of [GetStatus] is the transport's: a decode error
    is a join. *)
Lemma GetStatus_context_error (W : World) (job : BulkJob) (tr : list Event)
    (e : ctxErr) :
  fst (GetStatus W job tr) = Err (contextError e) ->
  httpRequest W tr "GET" (statusURL job) = Err (contextError e).
Proof.
  unfold GetStatus, statusURL.
  destruct (httpRequest W tr _ _) as [b|err]; [|intros [= ->]; reflexivity].
  destruct (json_Unmarshal W b); discriminate.
Qed.

Lemma ToError_not_context (j : JobStateEnum) (e : ctxErr) :
  ToError j <> Some (contextError e).
Proof.
  unfold ToError.
  destruct (String.eqb j Aborted); [discriminate|].
  destruct (String.eqb j Failed); discriminate.
Qed.

(** C3, counterexample: a status fetch that fails with the transport's own
    deadline error, under a signal that is never triggered, makes [Wait]
    return the very error it returns when the deadline of its context has
    passed: the two cannot be told apart by the error. *)
Lemma Wait_transport_error_like_cancellation :
  neverDone [] = None /\
  option_map fst (Wait timeoutWorld mockJob neverDone 1 [])
  = Some (Some (contextError DeadlineExceeded)) /\
  option_map fst (Wait (pollWorld []) mockJob expired 1 [])
  = Some (Some (contextError DeadlineExceeded)).
Proof. repeat split. Qed.

(** C3 (amended): the signal is read at the start of every turn of the
    loop.  When it is triggered at the start of turn k+1, after k turns on
    states that are not finished, [Wait] returns the context's error at
    once: the k fetches and k sleeps of the earlier turns are all it has
    done, and for k = 0, a signal triggered before the call, it has issued
    no request at all.  The error is none of the job-outcome errors and no
    decode error.  A transport error is passed on as it is: whenever [Wait]
    returns a context error, either the signal was triggered at the point
    where it returned, or the last status request itself failed with that
    context error. *)
Theorem Wait_cancelled_before_fetch :
  forall (W : World) (job : BulkJob) (ctx : Context),
    (forall (states : list JobStateEnum) (e : ctxErr)
            (tr0 : list Event) (fuel : nat),
        Forall nonTerminal states ->
        polls W job tr0 states ->
        (forall tr i, fetches tr = (fetches tr0 + i)%nat ->
                      (i < length states)%nat -> ctx tr = None) ->
        (forall tr, fetches tr = (fetches tr0 + length states)%nat ->
                    ctx tr = Some e) ->
        (length states < fuel)%nat ->
        let tr1 := turns job (length states) in
        Wait W job ctx fuel tr0 = Some (Some (contextError e), (tr0 ++ tr1)%list) /\
        fetches tr1 = length states /\
        sleeps tr1 = repeat (10 * Second) (length states)) /\
    (forall (e : ctxErr) (j : JobStateEnum), ToError j <> Some (contextError e)) /\
    (forall (e : ctxErr) sfErr err, joinWith sfErr err <> contextError e) /\
    (forall (fuel : nat) (tr tr' : list Event) (e : ctxErr),
        Wait W job ctx fuel tr = Some (Some (contextError e), tr') ->
        ctx tr' = Some e \/
        exists trk : list Event,
          tr' = (trk ++ [EvHttpRequest "GET" (statusURL job)])%list /\
          ctx trk = None /\
          httpRequest W trk "GET" (statusURL job) = Err (contextError e)).
Proof.
  intros W job ctx. repeat split.
  - replace fuel with (length states + S (fuel - S (length states)))%nat by lia.
    rewrite (Wait_prefix W job ctx states tr0) by assumption. simpl Wait.
    now rewrite H2 by (rewrite fetches_app, fetches_turns; lia).
  - apply fetches_turns.
  - apply sleeps_turns.
  - intros e j. apply ToError_not_context.
  - discriminate.
  - intros fuel tr tr' e H.
    apply Wait_outcome in H as [k [_ H]]. cbv zeta in H.
    destruct H as [[e1 [Hc1 [[= ->] ->]]]|[Hc1 [-> [[err [Hg [= <-]]]|[st [_ [_ H]]]]]]].
    + now left.
    + right. exists (tr ++ turns job k)%list. repeat split; [exact Hc1|].
      now apply GetStatus_context_error.
    + symmetry in H. now apply ToError_not_context in H.
Qed.

Lemma Wait_cancelled_before_fetch_witness :
  Wait (pollWorld []) mockJob cancelled 1 [] = Some (Some (contextError Canceled), []) /\
  fetches [] = 0%nat /\
  sleeps [] = [] /\
  (forall j, ToError j <> Some (contextError Canceled)) /\
  (forall sfErr err, joinWith sfErr err <> contextError Canceled) /\
  exists trk : list Event,
    [statusGet] = (trk ++ [EvHttpRequest "GET" (statusURL mockJob)])%list /\
    neverDone trk = None /\
    httpRequest timeoutWorld trk "GET" (statusURL mockJob)
    = Err (contextError DeadlineExceeded).
Proof.
  destruct (Wait_cancelled_before_fetch (pollWorld []) mockJob cancelled)
    as (H1 & H2 & H3 & _).
  destruct (H1 [] Canceled [] 1%nat) as (H4 & H5 & H6).
  - constructor.
  - apply pollWorld_polls.
  - simpl. intros tr i _ Hi. lia.
  - reflexivity.
  - simpl. lia.
  - destruct (Wait_cancelled_before_fetch timeoutWorld mockJob neverDone)
      as (_ & _ & _ & H7).
    destruct (H7 1%nat [] [statusGet] DeadlineExceeded) as [H8|H8].
    + reflexivity.
    + discriminate H8.
    + repeat split; auto.
Defined.

(** A signal triggered while the job is in progress: the loop stops at the
    start of the next turn, without a further fetch. *)
Example Wait_cancelled_after_one_poll :
  Wait (pollWorld ["InProgress"; "InProgress"; "JobComplete"]) mockJob
       (cancelledAfter 1) 3 []
  = Some (Some (contextError Canceled), [statusGet; EvSleep 10000000000]).
Proof. reflexivity. Qed.

(** * Further properties *)

(** ** Job states and their errors *)

Lemma ToError_nil_finished (j : JobStateEnum) :
  IsFinished j = true -> ToError j = None -> j = JobComplete.
Proof.
  intros Hf He. apply IsFinished_spec in Hf as [->|[->| ->]];
    [discriminate|reflexivity|discriminate].
Qed.

(** X1: the two mappings of a state agree.  A state is finished exactly
    when it is Aborted, JobComplete or Failed; every state with an error is
    finished, and the one finished state without an error is JobComplete. *)
Theorem IsFinished_ToError :
  forall j : JobStateEnum,
    (IsFinished j = true <-> j = Aborted \/ j = JobComplete \/ j = Failed) /\
    (ToError j <> None <-> IsFinished j = true /\ j <> JobComplete) /\
    (IsFinished j = true /\ ToError j = None <-> j = JobComplete).
Proof.
  intros j. split; [apply IsFinished_spec|]. split.
  - split.
    + unfold ToError.
      destruct (String.eqb_spec j Aborted) as [Ha|_];
        [subst j; split; [reflexivity|discriminate]|].
      destruct (String.eqb_spec j Failed) as [Hf|_];
        [subst j; split; [reflexivity|discriminate]|].
      contradiction.
    + intros [Hf Hn] He. apply Hn. now apply ToError_nil_finished.
  - split.
    + intros [Hf He]. now apply ToError_nil_finished.
    + intros ->. split; reflexivity.
Qed.

(** X2: nil means complete.  Whatever the server and the signal do, when
    [Wait] returns nil its last action was a status fetch that yielded the
    state JobComplete. *)
Theorem Wait_nil_means_complete :
  forall (W : World) (job : BulkJob) (ctx : Context) (fuel : nat)
         (tr tr' : list Event),
    Wait W job ctx fuel tr = Some (None, tr') ->
    exists (trk : list Event) (st : BulkJobStatus),
      tr' = (trk ++ [statusFetch job])%list /\
      ctx trk = None /\
      fst (GetStatus W job trk) = Ok st /\
      State st = JobComplete.
Proof.
  intros W job ctx fuel tr tr' H.
  apply Wait_outcome in H as [k [_ H]]. cbv zeta in H.
  destruct H as [[e [_ [H _]]]|[Hc [-> [[err [_ H]]|[st [Hg [Hf H]]]]]]];
    try discriminate.
  exists (tr ++ turns job k)%list, st. unfold statusFetch. repeat split; auto.
  now apply ToError_nil_finished.
Qed.

Lemma Wait_nil_means_complete_witness :
  exists (trk : list Event) (st : BulkJobStatus),
    [statusGet; EvSleep 10000000000; statusGet; EvSleep 10000000000; statusGet]
    = (trk ++ [statusFetch mockJob])%list /\
    neverDone trk = None /\
    fst (GetStatus (pollWorld ["InProgress"; "InProgress"; "JobComplete"]) mockJob trk)
    = Ok st /\
    State st = JobComplete.
Proof.
  apply (Wait_nil_means_complete
           (pollWorld ["InProgress"; "InProgress"; "JobComplete"]) mockJob neverDone
           3 []).
  reflexivity.
Defined.

(** X3: what [Wait] does.  Whatever the server and the signal do, when
    [Wait] returns it has made k turns of one GET of the status URL and
    one sleep of ten seconds, and then either stopped on the signal, or
    made one more GET: no other request, no other sleep, and no sleep
    after the last fetch. *)
Theorem Wait_trace_shape :
  forall (W : World) (job : BulkJob) (ctx : Context) (fuel : nat)
         (tr tr' : list Event) (r : option error),
    Wait W job ctx fuel tr = Some (r, tr') ->
    exists k : nat,
      (k < fuel)%nat /\
      sleeps tr' = (sleeps tr ++ repeat (10 * Second) k)%list /\
      ((exists e, r = Some (contextError e) /\
          tr' = (tr ++ turns job k)%list /\
          fetches tr' = (fetches tr + k)%nat) \/
       (ctx (tr ++ turns job k)%list = None /\
          tr' = (tr ++ turns job k ++ [statusFetch job])%list /\
          fetches tr' = (fetches tr + k + 1)%nat)).
Proof.
  intros W job ctx fuel tr tr' r H.
  apply Wait_outcome in H as [k [Hk H]]. cbv zeta in H.
  exists k. split; [exact Hk|].
  destruct H as [[e [_ [-> ->]]]|[Hc [-> _]]].
  - split; [now rewrite sleeps_app, sleeps_turns|].
    left. exists e. repeat split. now rewrite fetches_app, fetches_turns.
  - split; [now rewrite !sleeps_app, sleeps_turns, app_nil_r|].
    right. unfold statusFetch. rewrite <- app_assoc. repeat split; [exact Hc|].
    rewrite !fetches_app, fetches_turns. unfold fetches at 2. simpl. lia.
Qed.

Lemma Wait_trace_shape_witness :
  exists k : nat,
    (k < 3)%nat /\
    sleeps [statusGet; EvSleep 10000000000] = ([] ++ repeat (10 * Second) k)%list /\
    ((exists e, Some (contextError Canceled) = Some (contextError e) /\
        [statusGet; EvSleep 10000000000] = ([] ++ turns mockJob k)%list /\
        fetches [statusGet; EvSleep 10000000000] = (0 + k)%nat) \/
     (cancelledAfter 1 ([] ++ turns mockJob k)%list = None /\
        [statusGet; EvSleep 10000000000]
        = ([] ++ turns mockJob k ++ [statusFetch mockJob])%list /\
        fetches [statusGet; EvSleep 10000000000] = (0 + k + 1)%nat)).
Proof.
  apply (Wait_trace_shape
           (pollWorld ["InProgress"; "InProgress"; "JobComplete"]) mockJob
           (cancelledAfter 1) 3 [] _ (Some (contextError Canceled))).
  reflexivity.
Defined.

(** X4: no retry.  When the fetch of turn k+1 fails, after k turns on
    states that are not finished and with the signal silent, [Wait] returns
    that very error at once: k+1 fetches, k sleeps, nothing after the
    failure. *)
Theorem Wait_fetch_error :
  forall (W : World) (job : BulkJob) (ctx : Context)
         (states : list JobStateEnum) (err : error)
         (tr0 : list Event) (fuel : nat),
    Forall nonTerminal states ->
    polls W job tr0 states ->
    (forall tr i, fetches tr = (fetches tr0 + i)%nat ->
                  (i <= length states)%nat -> ctx tr = None) ->
    (forall tr, fetches tr = (fetches tr0 + length states)%nat ->
                fst (GetStatus W job tr) = Err err) ->
    (length states < fuel)%nat ->
    let tr1 := (turns job (length states) ++ [statusFetch job])%list in
    Wait W job ctx fuel tr0 = Some (Some err, (tr0 ++ tr1)%list) /\
    fetches tr1 = S (length states) /\
    sleeps tr1 = repeat (10 * Second) (length states).
Proof.
  intros W job ctx states err tr0 fuel Hnt Hp Hc He Hfuel tr1. subst tr1.
  split; [|split].
  - replace fuel with (length states + S (fuel - S (length states)))%nat by lia.
    rewrite (Wait_prefix W job ctx states tr0 Hnt Hp)
      by (intros tr i Htr Hi; apply (Hc tr i Htr); lia).
    cbn [Wait].
    rewrite (Hc (tr0 ++ turns job (length states))%list (length states))
      by (rewrite ?fetches_app, ?fetches_turns; lia).
    pose proof (GetStatus_trace W job (tr0 ++ turns job (length states))%list) as Ht.
    specialize (He (tr0 ++ turns job (length states))%list).
    rewrite fetches_app, fetches_turns in He. specialize (He eq_refl).
    destruct (GetStatus W job _) as [res tr1]. cbn [fst snd] in He, Ht. subst res tr1.
    now rewrite <- app_assoc.
  - rewrite fetches_app, fetches_turns. unfold fetches. simpl. lia.
  - rewrite sleeps_app, sleeps_turns. simpl. now rewrite app_nil_r.
Qed.

Lemma pollWorld_exhausted (bodies : list string) (tr : list Event) :
  fetches tr = length bodies ->
  fst (GetStatus (pollWorld bodies) mockJob tr)
  = Err (externalError "connection refused").
Proof.
  intros H. unfold GetStatus, pollWorld. cbn [httpRequest].
  rewrite H, lookup_ge_None_2 by lia. reflexivity.
Qed.

Lemma Wait_fetch_error_witness :
  Wait (pollWorld ["InProgress"]) mockJob neverDone 2 []
  = Some (Some (externalError "connection refused"),
          [statusGet; EvSleep 10000000000; statusGet]) /\
  fetches [statusGet; EvSleep 10000000000; statusGet] = 2%nat /\
  sleeps [statusGet; EvSleep 10000000000; statusGet] = [10000000000].
Proof.
  apply (Wait_fetch_error (pollWorld ["InProgress"]) mockJob neverDone
           [InProgress] (externalError "connection refused") [] 2).
  - repeat constructor; right; reflexivity.
  - apply pollWorld_polls.
  - reflexivity.
  - intros tr H. now apply pollWorld_exhausted.
  - simpl. lia.
Defined.

(** X5: no cap on the turns.  While every fetch yields a state that is not
    finished and the signal stays silent, [Wait] does not return: the loop
    is still running after any number of turns. *)
Theorem Wait_keeps_polling :
  forall (W : World) (job : BulkJob) (ctx : Context),
    (forall tr, ctx tr = None) ->
    (forall tr, exists st,
        fst (GetStatus W job tr) = Ok st /\ IsFinished (State st) = false) ->
    forall (fuel : nat) (tr : list Event), Wait W job ctx fuel tr = None.
Proof.
  intros W job ctx Hc Hg fuel.
  induction fuel as [|fuel IH]; intros tr; [reflexivity|].
  cbn [Wait]. rewrite Hc. destruct (Hg tr) as [st [Hs Hf]].
  destruct (GetStatus W job tr) as [res tr1]. cbn [fst] in Hs. subst res.
  rewrite Hf. apply IH.
Qed.

Lemma Wait_keeps_polling_witness :
  Wait stuckWorld mockJob neverDone 1000 [] = None.
Proof.
  apply (Wait_keeps_polling stuckWorld mockJob neverDone).
  - reflexivity.
  - intros tr. eexists. split; reflexivity.
Defined.

(** ** Result sets and deletion: the requests *)

(** X7: what is sent.  [GetResultSet] sends a GET to the results URL of
    the job with exactly three headers: JSON as content type, CSV as the
    accepted answer and the session token as bearer.  [Delete] sends a GET
    as well, to the very URL [GetStatus] polls, with the content type and
    the bearer token and no Accept header. *)
Theorem requests_built :
  forall (W : World) (job : BulkJob) (locator : string),
    url_Parse W (makeURL (client job) ("jobs/query/" ++ Id job ++ "/results")) = None ->
    url_Parse W (statusURL job) = None ->
    exists rq dq : Request,
      resultSetRequest W job locator = Ok rq /\
      Method rq = "GET" /\
      URL rq = makeURL (client job) ("jobs/query/" ++ Id job ++ "/results") /\
      Header_Get (ReqHeader rq) "Content-Type" = "application/json" /\
      Header_Get (ReqHeader rq) "Accept" = "text/csv" /\
      Header_Get (ReqHeader rq) "Authorization" = "Bearer " ++ sessionID (client job) /\
      size (ReqHeader rq) = 3%nat /\
      deleteRequest W job = Ok dq /\
      Method dq = "GET" /\
      URL dq = statusURL job /\
      Header_Get (ReqHeader dq) "Content-Type" = "application/json" /\
      Header_Get (ReqHeader dq) "Authorization" = "Bearer " ++ sessionID (client job) /\
      Header_Get (ReqHeader dq) "Accept" = "" /\
      size (ReqHeader dq) = 2%nat.
Proof.
  intros W job locator H1 H2.
  unfold resultSetRequest, deleteRequest, http_NewRequest. fold (statusURL job).
  rewrite H1, H2. eexists. eexists.
  repeat split; vm_compute; reflexivity.
Qed.

Lemma requests_built_witness :
  exists rq dq : Request,
    resultSetRequest boomWorld mockJob "tok123" = Ok rq /\
    Method rq = "GET" /\
    URL rq = "https://example.invalid/services/data/v58.0/jobs/query/750R0000000zlh9IAA/results" /\
    Header_Get (ReqHeader rq) "Content-Type" = "application/json" /\
    Header_Get (ReqHeader rq) "Accept" = "text/csv" /\
    Header_Get (ReqHeader rq) "Authorization" = "Bearer 00Dxx!token" /\
    size (ReqHeader rq) = 3%nat /\
    deleteRequest boomWorld mockJob = Ok dq /\
    Method dq = "GET" /\
    URL dq = "https://example.invalid/services/data/v58.0/jobs/query/750R0000000zlh9IAA" /\
    Header_Get (ReqHeader dq) "Content-Type" = "application/json" /\
    Header_Get (ReqHeader dq) "Authorization" = "Bearer 00Dxx!token" /\
    Header_Get (ReqHeader dq) "Accept" = "" /\
    size (ReqHeader dq) = 2%nat.
Proof.
  apply (requests_built boomWorld mockJob "tok123"); reflexivity.
Defined.

(** ** Result sets: the body and the headers of the answer *)

(** X8: a body that cannot be read to its end.  On an answer of 400 or
    more the read error is swallowed and the error text is built from the
    bytes that were read.  On an answer below 400 the buffer is made first,
    from the declared content length, and the call ends there if that
    fails; otherwise the read error fails the call and the bytes already
    read are dropped. *)
Theorem GetResultSet_read_error :
  forall (W : World) (job : BulkJob) (locator : string) (tr : list Event)
         (resp : Response) (e : error),
    answers W tr (resultSetRequest W job locator) resp ->
    readErr (RespBody resp) = Some e ->
    fst (GetResultSet W job locator tr)
    = if 400 <=? StatusCode resp
      then Returns (Err (errorString ("failed to get result set from bulk job: "
                     ++ Status resp ++ " body(" ++ data (RespBody resp) ++ ")")))
      else match presize W resp with
           | Returns _ => Returns (Err e)
           | Panics msg => Panics msg
           | Dies msg => Dies msg
           end.
Proof.
  intros W job locator tr resp e [req [Hr Hd]] He.
  unfold GetResultSet. rewrite Hr, Hd.
  destruct (400 <=? StatusCode resp); [reflexivity|].
  destruct (presize W resp); [|reflexivity..].
  unfold io_Copy. now rewrite He.
Qed.

Lemma GetResultSet_read_error_witness :
  fst (GetResultSet (brokenBodyWorld 200 "200 OK" ∅ "Id,Name") mockJob "" [])
  = Returns (Err (externalError "unexpected EOF")).
Proof.
  apply (GetResultSet_read_error (brokenBodyWorld 200 "200 OK" ∅ "Id,Name") mockJob "" []
           (mkResponse "200 OK" 200 ∅
              (mkBody "Id,Name" (Some (externalError "unexpected EOF"))) (-1))).
  - eexists. split; reflexivity.
  - reflexivity.
Defined.

(** X17: a declared length that cannot be allocated.  On an answer below
    400 whose declared content length is beyond what the runtime allocates
    at once, [GetResultSet] does not return: making the buffer panics,
    after the request has been sent and before a byte of the body is read,
    whatever the body and the headers are. *)
Theorem GetResultSet_presize_panics :
  forall (W : World) (job : BulkJob) (locator : string) (tr : list Event)
         (resp : Response),
    answers W tr (resultSetRequest W job locator) resp ->
    StatusCode resp < 400 ->
    0 < ContentLength resp ->
    maxAlloc W < ContentLength resp ->
    fst (GetResultSet W job locator tr)
    = Panics "runtime error: makeslice: cap out of range" /\
    exists req : Request,
      resultSetRequest W job locator = Ok req /\
      snd (GetResultSet W job locator tr) = (tr ++ [EvDo req])%list.
Proof.
  intros W job locator tr resp [req [Hr Hd]] Hc Hl Hm.
  unfold GetResultSet. rewrite Hr, Hd.
  apply Z.leb_gt in Hc. rewrite Hc. unfold presize, makeslice.
  apply Z.ltb_lt in Hl, Hm. rewrite Hl, Hm. split; [reflexivity|].
  exists req. split; reflexivity.
Qed.

Lemma GetResultSet_presize_panics_witness :
  fst (GetResultSet hugeWorld mockJob "" [])
  = Panics "runtime error: makeslice: cap out of range" /\
  exists req : Request,
    resultSetRequest hugeWorld mockJob "" = Ok req /\
    snd (GetResultSet hugeWorld mockJob "" []) = ([] ++ [EvDo req])%list.
Proof.
  apply (GetResultSet_presize_panics hugeWorld mockJob "" [] hugeResponse).
  - eexists. split; reflexivity.
  - simpl. lia.
  - reflexivity.
  - reflexivity.
Defined.

Lemma len_numeral (ds : list Z) : len (numeral ds) = Z.of_nat (length ds).
Proof.
  induction ds as [|d ds IH]; [reflexivity|].
  cbn [numeral length]. rewrite len_cons, IH. lia.
Qed.

Lemma atoiFast_numeral (ds : list Z) :
  Forall isDecimalDigit ds ->
  forall n, atoiFast (numeral ds) n = (numValueFrom n ds, None).
Proof.
  induction 1 as [|d ds Hd _ IH]; intros n; [reflexivity|].
  cbn [numeral atoiFast numValueFrom].
  rewrite (isDigitByte_digitByte d Hd), (byteval_digitByte d Hd). cbn [negb].
  rewrite IH. do 2 f_equal. lia.
Qed.

(** strconv.Atoi reads a decimal numeral of up to 17 digits, with or
    without a minus sign, as its value. *)
Lemma Atoi_decimal (neg : bool) (ds : list Z) :
  Forall isDecimalDigit ds ->
  (1 <= length ds <= 17)%nat ->
  Atoi (decimal neg ds) = (decimalValue neg ds, None).
Proof.
  intros Hds Hlen. destruct ds as [|d ds]; [simpl in Hlen; lia|].
  assert (Hd : isDecimalDigit d) by now inversion Hds.
  pose proof (len_numeral (d :: ds)) as Hl.
  unfold Atoi, decimal, decimalValue, numValue. destruct neg.
  - rewrite len_cons, Hl.
    replace ((0 <? 1 + Z.of_nat (length (d :: ds)))
             && (1 + Z.of_nat (length (d :: ds)) <? 19)) with true.
    2:{ symmetry. apply andb_true_iff. split; apply Z.ltb_lt; lia. }
    change (Ascii.eqb "-" "-" || Ascii.eqb "-" "+") with true. cbv iota.
    rewrite (atoiFast_numeral _ Hds).
    destruct (Z.ltb_spec (Z.of_nat (length (d :: ds))) 1) as [Hlt|_];
      [simpl length in Hlt; lia|reflexivity].
  - rewrite Hl.
    replace ((0 <? Z.of_nat (length (d :: ds)))
             && (Z.of_nat (length (d :: ds)) <? 19)) with true.
    2:{ symmetry. apply andb_true_iff. split; apply Z.ltb_lt; lia. }
    cbn [numeral]. rewrite (digitByte_not_sign d Hd).
    change (String (digitByte d) (numeral ds)) with (numeral (d :: ds)).
    now rewrite (atoiFast_numeral _ Hds).
Qed.

(** X9: the page of a good answer.  When the answer is below 400, the
    buffer for its declared content length can be made, its body reads to
    the end and its record-count header is a decimal numeral of up to 17
    digits, the page holds the whole body, the locator header as Next and
    the value of the numeral as Rows; a minus sign is honoured, so Rows can
    be negative. *)
Theorem GetResultSet_page_of_numeral :
  forall (W : World) (job : BulkJob) (locator : string) (tr : list Event)
         (resp : Response) (neg : bool) (ds : list Z),
    answers W tr (resultSetRequest W job locator) resp ->
    StatusCode resp < 400 ->
    presize W resp = Returns tt ->
    readErr (RespBody resp) = None ->
    Forall isDecimalDigit ds ->
    (1 <= length ds <= 17)%nat ->
    Header_Get (Header resp) "Sforce-NumberOfRecords" = decimal neg ds ->
    fst (GetResultSet W job locator tr)
    = Returns (Ok (mkBulkJobResultSet (data (RespBody resp))
                     (Header_Get (Header resp) "Sforce-Locator")
                     (decimalValue neg ds))).
Proof.
  intros W job locator tr resp neg ds Ha Hc Hp He Hds Hlen Hh.
  rewrite (GetResultSet_page W job locator tr resp Ha Hc Hp He), Hh.
  now rewrite (Atoi_decimal neg ds Hds Hlen).
Qed.

Lemma GetResultSet_page_of_numeral_witness :
  fst (GetResultSet
         (pageWorld (Header_Add (Header_Add ∅ "Sforce-NumberOfRecords" "42")
                                "Sforce-Locator" "tok123") "Id")
         mockJob "" [])
  = Returns (Ok (mkBulkJobResultSet "Id" "tok123" 42)).
Proof.
  rewrite (GetResultSet_page_of_numeral
             (pageWorld (Header_Add (Header_Add ∅ "Sforce-NumberOfRecords" "42")
                                    "Sforce-Locator" "tok123") "Id")
             mockJob "" []
             (mockResponse 200 "200 OK"
                (Header_Add (Header_Add ∅ "Sforce-NumberOfRecords" "42")
                            "Sforce-Locator" "tok123") "Id")
             false [4; 2]).
  - vm_compute. reflexivity.
  - eexists. split; reflexivity.
  - simpl. lia.
  - reflexivity.
  - reflexivity.
  - repeat constructor; unfold isDecimalDigit; lia.
  - simpl. lia.
  - vm_compute. reflexivity.
Defined.

Lemma atoiFast_not_all_digits (s : string) :
  allDigits s = false -> forall n, atoiFast s n = (0, Some ErrSyntax).
Proof.
  induction s as [|c s IH]; [discriminate|]. intros H n.
  cbn [allDigits] in H. cbn [atoiFast].
  destruct (isDigitByte c); [|reflexivity]. cbn [negb]. now apply IH.
Qed.

Lemma len_stripSign (s : string) : len (stripSign s) <= len s.
Proof.
  destruct s as [|c s]; [reflexivity|]. cbn [stripSign].
  destruct (_ || _); rewrite ?len_cons; lia.
Qed.

Lemma len_zero (s : string) : len s = 0 -> s = "".
Proof.
  destruct s; [reflexivity|]. rewrite len_cons.
  pose proof (len_nonneg s). lia.
Qed.

(** strconv.Atoi answers zero and a syntax error on a short value that is
    no decimal number. *)
Lemma Atoi_notANumber (v : string) :
  notANumber v -> Atoi v = (0, Some ErrSyntax).
Proof.
  intros [Hl Hv]. unfold Atoi.
  destruct v as [|c s]; [reflexivity|].
  replace ((0 <? len (String c s)) && (len (String c s) <? 19)) with true.
  2:{ symmetry. apply andb_true_iff. rewrite len_cons in *.
      pose proof (len_nonneg s). split; apply Z.ltb_lt; lia. }
  cbn [stripSign] in Hv. destruct (Ascii.eqb c "-" || Ascii.eqb c "+").
  - destruct Hv as [-> | Hv]; [reflexivity|].
    destruct (len s <? 1) eqn:E; [reflexivity|].
    now rewrite (atoiFast_not_all_digits s Hv).
  - destruct Hv as [Hv | Hv]; [discriminate|].
    now apply atoiFast_not_all_digits.
Qed.

(** X10: a missing or malformed record count.  When the answer is below
    400, the buffer for its declared content length can be made and its
    body reads to the end, a record-count header that is absent, empty, or
    a value of at most 18 bytes that is no decimal number gives a page with
    Rows = 0 and no error; an absent locator header gives Next = "". *)
Theorem GetResultSet_rows_default :
  forall (W : World) (job : BulkJob) (locator : string) (tr : list Event)
         (resp : Response),
    answers W tr (resultSetRequest W job locator) resp ->
    StatusCode resp < 400 ->
    presize W resp = Returns tt ->
    readErr (RespBody resp) = None ->
    Header resp !! "Sforce-Numberofrecords" = None \/
    notANumber (Header_Get (Header resp) "Sforce-NumberOfRecords") ->
    fst (GetResultSet W job locator tr)
    = Returns (Ok (mkBulkJobResultSet (data (RespBody resp))
                     (Header_Get (Header resp) "Sforce-Locator") 0)) /\
    (Header resp !! "Sforce-Locator" = None ->
     Header_Get (Header resp) "Sforce-Locator" = "").
Proof.
  intros W job locator tr resp Ha Hc Hp He Hh.
  rewrite (GetResultSet_page W job locator tr resp Ha Hc Hp He).
  assert (Hn : notANumber (Header_Get (Header resp) "Sforce-NumberOfRecords")).
  { destruct Hh as [Hh|Hh]; [|exact Hh].
    rewrite (Header_Get_absent _ "Sforce-NumberOfRecords" Hh).
    split; [reflexivity|now left]. }
  rewrite (Atoi_notANumber _ Hn). split; [reflexivity|].
  apply (Header_Get_absent _ "Sforce-Locator").
Qed.

Lemma GetResultSet_rows_default_witness :
  fst (GetResultSet (pageWorld (Header_Add ∅ "Sforce-NumberOfRecords" "n/a") "Id")
         mockJob "" [])
  = Returns (Ok (mkBulkJobResultSet "Id" "" 0)).
Proof.
  destruct (GetResultSet_rows_default
              (pageWorld (Header_Add ∅ "Sforce-NumberOfRecords" "n/a") "Id") mockJob "" []
              (mockResponse 200 "200 OK" (Header_Add ∅ "Sforce-NumberOfRecords" "n/a") "Id"))
    as [H1 H2].
  - eexists. split; reflexivity.
  - simpl. lia.
  - reflexivity.
  - reflexivity.
  - right. split; [reflexivity|right; vm_compute; reflexivity].
  - rewrite H1, H2; reflexivity.
Defined.

(** ** Header names *)

Lemma canonicalize_cons (upper : bool) (c : ascii) (a : string) :
  canonicalize upper (String c a)
  = String (canonByte upper c)
      (canonicalize (Ascii.eqb (canonByte upper c) "-") a).
Proof. reflexivity. Qed.

Lemma canonByte_idempotent (upper : bool) (c : ascii) :
  canonByte upper (canonByte upper c) = canonByte upper c.
Proof. destruct upper; destruct c as [[] [] [] [] [] [] [] []]; reflexivity. Qed.

Lemma canonByte_valid (upper : bool) (c : ascii) :
  validHeaderFieldByte (canonByte upper c) = validHeaderFieldByte c.
Proof. destruct upper; destruct c as [[] [] [] [] [] [] [] []]; reflexivity. Qed.

Lemma canonicalize_valid (a : string) :
  forall upper,
    forallb validHeaderFieldByte (list_ascii_of_string (canonicalize upper a))
    = forallb validHeaderFieldByte (list_ascii_of_string a).
Proof.
  induction a as [|c a IH]; intros upper; [reflexivity|].
  rewrite canonicalize_cons. cbn [list_ascii_of_string forallb].
  now rewrite canonByte_valid, IH.
Qed.

Lemma canonicalize_idempotent (a : string) :
  forall upper,
    canonicalize upper (canonicalize upper a) = canonicalize upper a.
Proof.
  induction a as [|c a IH]; intros upper; [reflexivity|].
  rewrite !canonicalize_cons, canonByte_idempotent. now rewrite IH.
Qed.

Lemma CanonicalMIMEHeaderKey_idempotent (s : string) :
  CanonicalMIMEHeaderKey (CanonicalMIMEHeaderKey s) = CanonicalMIMEHeaderKey s.
Proof.
  unfold CanonicalMIMEHeaderKey.
  destruct (forallb validHeaderFieldByte (list_ascii_of_string s)) eqn:E.
  - rewrite canonicalize_valid, E. apply canonicalize_idempotent.
  - now rewrite E.
Qed.

(** X11: header names.  A value added under one spelling of a name is
    found under every spelling with the same canonical form: the lookup
    yields the first value the name already had, or else the value just
    added.  Names with another canonical form are left alone, and the
    canonical form of a name is its own canonical form. *)
Theorem Header_Add_then_Get :
  forall (h : gmap string (list string)) (key key' value : string),
    Header_Get (Header_Add h key value) key'
    = (if decide (CanonicalMIMEHeaderKey key = CanonicalMIMEHeaderKey key')
       then match h !! CanonicalMIMEHeaderKey key with
            | Some (v :: _) => v
            | _ => value
            end
       else Header_Get h key') /\
    Header_Get h (CanonicalMIMEHeaderKey key) = Header_Get h key /\
    Header_Add h (CanonicalMIMEHeaderKey key) value = Header_Add h key value.
Proof.
  intros h key key' value. split; [|split].
  - unfold Header_Get, Header_Add.
    destruct (decide _) as [E|E].
    + rewrite <- E, lookup_insert_eq.
      destruct (h !! CanonicalMIMEHeaderKey key) as [[|v vs]|]; reflexivity.
    + now rewrite lookup_insert_ne.
  - unfold Header_Get. now rewrite CanonicalMIMEHeaderKey_idempotent.
  - unfold Header_Add. now rewrite CanonicalMIMEHeaderKey_idempotent.
Qed.

(** ** Time codec: the host, looser inputs, days that do not exist *)

(** X12: the host's zone does not matter to the instant.  On every input
    the outcome of [UnmarshalJSON] under two hosts is the same error, or
    nil on both, and the receivers afterwards hold the same instant; only
    the location attached to it can differ. *)
Theorem UnmarshalJSON_host_independent :
  forall (lo1 lo2 : Z -> Z) (t : SalesforceTime) (b : string),
    snd (UnmarshalJSON lo1 t b) = snd (UnmarshalJSON lo2 t b) /\
    ext (Time_ (fst (UnmarshalJSON lo1 t b)))
    = ext (Time_ (fst (UnmarshalJSON lo2 t b))) /\
    wall (Time_ (fst (UnmarshalJSON lo1 t b)))
    = wall (Time_ (fst (UnmarshalJSON lo2 t b))) /\
    Equal (Time_ (fst (UnmarshalJSON lo1 t b)))
          (Time_ (fst (UnmarshalJSON lo2 t b))) = true.
Proof.
  intros lo1 lo2 t b.
  assert (H : snd (UnmarshalJSON lo1 t b) = snd (UnmarshalJSON lo2 t b) /\
              ext (Time_ (fst (UnmarshalJSON lo1 t b)))
              = ext (Time_ (fst (UnmarshalJSON lo2 t b))) /\
              wall (Time_ (fst (UnmarshalJSON lo1 t b)))
              = wall (Time_ (fst (UnmarshalJSON lo2 t b)))).
  { unfold UnmarshalJSON. destruct (String.eqb b "null"); [auto|].
    unfold Parse.
    destruct (parseChunks layoutChunks b initFields) as [[v f]|[[le ve] msg]]; [|auto].
    destruct (parseTail v) as [v2|[[le ve] msg]]; [|auto].
    unfold finish.
    destruct (_ || _); [auto|].
    destruct (negb _); [|auto].
    destruct (lo1 _ =? _); destruct (lo2 _ =? _); auto. }
  destruct H as (H1 & H2 & H3). repeat split; auto.
  unfold Equal. now rewrite H2, H3, !Z.eqb_refl.
Qed.

Lemma getnum_one_digit (h : Z) (k : string) :
  0 <= h <= 9 ->
  getnum (String (digitByte h) (String ":" k)) false = Some (h, String ":" k).
Proof.
  intros H. unfold getnum.
  rewrite (isDigitByte_digitByte h H), (byteval_digitByte h H).
  change (isDigitByte ":") with false. cbn [negb]. cbv iota.
  do 2 f_equal. lia.
Qed.

Lemma parseElem_hourText (short : bool) (h : Z) (k : string) (f : fields) :
  0 <= h <= 23 -> (short = true -> h <= 9) ->
  parseElem stdHour (hourText short h ++ String ":" k) f
  = mkElem (String ":" k) (setHour f h) "" false.
Proof.
  intros H Hs. destruct short.
  - specialize (Hs eq_refl).
    change (hourText true h ++ String ":" k) with (String (digitByte h) (String ":" k)).
    cbn [parseElem]. rewrite getnum_one_digit by lia.
    replace ((h <? 0) || (24 <=? h)) with false; [reflexivity|].
    symmetry. apply orb_false_iff. split; [apply Z.ltb_ge|apply Z.leb_gt]; lia.
  - change (hourText false h ++ String ":" k) with (pad2 h (String ":" k)).
    now apply parseElem_hour.
Qed.

Lemma parseElem_millis_sep (sep : ascii) (ms : Z) (k : string) (f : fields) :
  commaOrPeriod sep = true ->
  0 <= ms <= 999 ->
  parseElem (stdFracSecond0 3) (String sep (pad3 ms k)) f
  = mkElem k (setNsec f (ms * 1000000)) "" false.
Proof.
  intros Hsep H.
  assert (E1 : (len (String sep (pad3 ms k)) <? Z.of_nat 4) = false).
  { apply Z.ltb_ge. unfold pad3, pad2. rewrite !len_cons.
    pose proof (len_nonneg k). lia. }
  unfold parseElem. rewrite E1. unfold parseNanoseconds.
  rewrite Hsep. cbn [negb].
  change (sliceFrom 1 (sliceTo (Nat.min 4 10) (String sep (pad3 ms k))))
    with (pad3 ms "").
  rewrite (atoi_pad3 ms H).
  replace (ms <? 0) with false by (symmetry; apply Z.ltb_ge; lia).
  change (sliceFrom 4 (String sep (pad3 ms k))) with k.
  change (10 ^ Z.of_nat (10 - Nat.min 4 10)) with 1000000. reflexivity.
Qed.

(** The date and the time of day read from a looser wire form. *)
Lemma parseChunks_loose (y mo d h mi s ms : Z) (short : bool) (sep : ascii)
    (k : string) :
  writableDateTime y mo d h mi s ms ->
  (short = true -> h <= 9) ->
  commaOrPeriod sep = true ->
  parseChunks dateTimeChunks (wireLoose y mo d (hourText short h) mi s sep ms k)
    initFields
  = inl (k, mkFields y mo d h mi s (ms * 1000000) (-1)).
Proof.
  intros (Hy & Hmo & Hd & Hh & Hmi & Hs & Hms) Hshort Hsep.
  unfold dateTimeChunks, wireLoose.
  erewrite parseChunks_step; [|reflexivity|now apply parseElem_year].
  erewrite parseChunks_step; [|reflexivity|now apply parseElem_month].
  erewrite parseChunks_step; [|reflexivity|now apply parseElem_day].
  erewrite parseChunks_step; [|reflexivity|now apply parseElem_hourText].
  erewrite parseChunks_step; [|reflexivity|now apply parseElem_minute].
  erewrite parseChunks_step; [|reflexivity|now apply parseElem_second].
  erewrite parseChunks_step; [|reflexivity|now apply parseElem_millis_sep].
  reflexivity.
Qed.

(** [time.Parse] on a looser wire form with a numeric zone: the fields go
    to the end of [time.Parse] as they are written. *)
Lemma Parse_loose (localOffset : Z -> Z) (y mo d h mi s ms : Z)
    (short : bool) (sep : ascii) (neg : bool) (zh zm : Z) :
  writableDateTime y mo d h mi s ms ->
  (short = true -> h <= 9) ->
  commaOrPeriod sep = true ->
  validOffset zh zm ->
  let input := wireLoose y mo d (hourText short h) mi s sep ms (zoneText neg zh zm) in
  Parse localOffset input
  = match finish localOffset ""
            (mkFields y mo d h mi s (ms * 1000000) (zoneSeconds neg zh zm)) with
    | inl t => Ok t
    | inr (le, ve, msg) => Err (timeParseError (newParseError layout input le ve msg))
    end.
Proof.
  intros Hw Hshort Hsep Hz input. subst input. unfold Parse, layoutChunks.
  rewrite parseChunks_app, (parseChunks_loose _ _ _ _ _ _ _ _ _ _ Hw Hshort Hsep).
  unfold zoneChunk, zoneText.
  erewrite parseChunks_step; [|reflexivity|cbn [parseElem]; now apply parseNumTZ_offset].
  cbn [parseChunks].
  change (parseTail (String dquote "")) with (@inl string (string * string * string) "").
  cbv iota beta. reflexivity.
Qed.

Lemma finish_valid (localOffset : Z -> Z) (y mo d h mi s ns z : Z) :
  1 <= mo <= 12 -> 1 <= d <= daysIn mo y ->
  exists t, finish localOffset "" (mkFields y mo d h mi s ns z) = inl t.
Proof.
  intros Hmo Hd. unfold finish. cbn [year month day hour min sec nsec zoneOffset].
  replace (mo <? 0) with false by (symmetry; apply Z.ltb_ge; lia).
  replace (d <? 0) with false by (symmetry; apply Z.ltb_ge; lia).
  replace ((d <? 1) || (daysIn mo y <? d)) with false.
  2:{ symmetry. apply orb_false_iff. split; apply Z.ltb_ge; lia. }
  destruct (negb _); [|eauto]. destruct (_ =? _); eauto.
Qed.

Lemma valid_writable (y mo d h mi s ms : Z) :
  validDateTime y mo d h mi s ms -> writableDateTime y mo d h mi s ms.
Proof.
  intros (Hy & Hmo & Hd & Hh & Hmi & Hs & Hms).
  pose proof (daysIn_le_31 mo y Hmo). unfold writableDateTime. lia.
Qed.

Lemma wireLoose_not_null (y mo d : Z) (hour : string) (mi s : Z) (sep : ascii)
    (ms : Z) (k : string) :
  String.eqb (wireLoose y mo d hour mi s sep ms k) "null" = false.
Proof. reflexivity. Qed.

(** X13: looser inputs.  The codec reads an hour below ten written in one
    digit, and a comma before the milliseconds, exactly as it reads the
    strict wire form of the same date, time and zone. *)
Theorem UnmarshalJSON_loose_forms :
  forall (localOffset : Z -> Z) (t : SalesforceTime)
         (y mo d h mi s ms : Z) (short : bool) (sep : ascii)
         (neg : bool) (zh zm : Z),
    validDateTime y mo d h mi s ms ->
    validOffset zh zm ->
    (short = true -> h <= 9) ->
    sep = "."%char \/ sep = ","%char ->
    UnmarshalJSON localOffset t
      (wireLoose y mo d (hourText short h) mi s sep ms (zoneText neg zh zm))
    = UnmarshalJSON localOffset t (wireTime y mo d h mi s ms neg zh zm) /\
    snd (UnmarshalJSON localOffset t (wireTime y mo d h mi s ms neg zh zm)) = None.
Proof.
  intros lo t y mo d h mi s ms short sep neg zh zm Hv Hz Hshort Hsep.
  assert (Hc : commaOrPeriod sep = true) by (destruct Hsep as [-> | ->]; reflexivity).
  pose proof (valid_writable _ _ _ _ _ _ _ Hv) as Hw.
  destruct Hv as (_ & Hmo & Hd & _).
  destruct (finish_valid lo y mo d h mi s (ms * 1000000) (zoneSeconds neg zh zm) Hmo Hd)
    as [t' Hf].
  pose proof (Parse_loose lo y mo d h mi s ms short sep neg zh zm Hw Hshort Hc Hz) as H1.
  pose proof (Parse_loose lo y mo d h mi s ms false "." neg zh zm Hw
                ltac:(discriminate) eq_refl Hz) as H2.
  cbv zeta in H1, H2. rewrite Hf in H1, H2.
  change (wireLoose y mo d (hourText false h) mi s "." ms (zoneText neg zh zm))
    with (wireTime y mo d h mi s ms neg zh zm) in H2.
  unfold UnmarshalJSON. rewrite wireLoose_not_null.
  unfold wireTime at 1 3. rewrite wire_not_null.
  fold (wireTime y mo d h mi s ms neg zh zm). now rewrite H1, H2.
Qed.

Lemma UnmarshalJSON_loose_forms_witness :
  UnmarshalJSON (fun _ => 0) (mkSalesforceTime zeroTime)
    (String dquote ("2023-12-02T2:30:02,000+0000" ++ String dquote ""))
  = UnmarshalJSON (fun _ => 0) (mkSalesforceTime zeroTime) wireExample /\
  snd (UnmarshalJSON (fun _ => 0) (mkSalesforceTime zeroTime) wireExample) = None.
Proof.
  apply (UnmarshalJSON_loose_forms (fun _ => 0) (mkSalesforceTime zeroTime)
           2023 12 2 2 30 2 0 true "," false 0 0).
  - unfold validDateTime. change (daysIn 12 2023) with 31. lia.
  - unfold validOffset. lia.
  - intros _. lia.
  - right. reflexivity.
Defined.

(** X14: days that do not exist.  A wire form whose fields are all in
    range but whose day is 00 or beyond the last day of its month, the 29th
    of February outside leap years included, is refused with the
    ParseError "day out of range", and the receiver is left as it was. *)
Theorem UnmarshalJSON_day_out_of_range_error :
  forall (localOffset : Z -> Z) (t : SalesforceTime)
         (y mo d h mi s ms : Z) (neg : bool) (zh zm : Z),
    writableDateTime y mo d h mi s ms ->
    validOffset zh zm ->
    d < 1 \/ daysIn mo y < d ->
    UnmarshalJSON localOffset t (wireTime y mo d h mi s ms neg zh zm)
    = (t, Some (timeParseError
                  (newParseError layout (wireTime y mo d h mi s ms neg zh zm)
                     "" "" ": day out of range"))).
Proof.
  intros lo t y mo d h mi s ms neg zh zm Hw Hz Hd.
  pose proof (Parse_loose lo y mo d h mi s ms false "." neg zh zm Hw
                ltac:(discriminate) eq_refl Hz) as H.
  cbv zeta in H.
  change (wireLoose y mo d (hourText false h) mi s "." ms (zoneText neg zh zm))
    with (wireTime y mo d h mi s ms neg zh zm) in H.
  unfold UnmarshalJSON. unfold wireTime at 1. rewrite wire_not_null.
  fold (wireTime y mo d h mi s ms neg zh zm). rewrite H.
  destruct Hw as (_ & Hmo & Hd' & _).
  unfold finish. cbn [year month day hour min sec nsec zoneOffset].
  replace (mo <? 0) with false by (symmetry; apply Z.ltb_ge; lia).
  replace (d <? 0) with false by (symmetry; apply Z.ltb_ge; lia).
  replace ((d <? 1) || (daysIn mo y <? d)) with true; [reflexivity|].
  symmetry. apply orb_true_iff. destruct Hd; [left|right]; apply Z.ltb_lt; lia.
Qed.

Lemma UnmarshalJSON_day_out_of_range_error_witness :
  UnmarshalJSON (fun _ => 0) someTime
    (String dquote ("2023-02-29T02:30:02.000+0000" ++ String dquote ""))
  = (someTime, Some (timeParseError
       (newParseError layout
          (String dquote ("2023-02-29T02:30:02.000+0000" ++ String dquote ""))
          "" "" ": day out of range"))).
Proof.
  apply (UnmarshalJSON_day_out_of_range_error (fun _ => 0) someTime
           2023 2 29 2 30 2 0 false 0 0).
  - unfold writableDateTime. lia.
  - unfold validOffset. lia.
  - right. change (daysIn 2 2023) with 28. lia.
Defined.

(** ** Time codec: the size of what is accepted *)

Lemma len_sliceFrom (n : nat) (s : string) :
  Z.of_nat n <= len s -> len (sliceFrom n s) = len s - Z.of_nat n.
Proof.
  revert s. induction n as [|n IH]; intros s H; [cbn [sliceFrom]; lia|].
  destruct s as [|c s]; [unfold len in H; simpl in H; lia|].
  cbn [sliceFrom]. rewrite len_cons in *. rewrite IH by lia. lia.
Qed.

Lemma getnum_width (s s' : string) (fixed : bool) (n : Z) :
  getnum s fixed = Some (n, s') ->
  (if fixed then 2 else 1) <= len s - len s' <= 2.
Proof.
  unfold getnum. destruct s as [|c0 [|c1 s1]]; [discriminate| |].
  - destruct (negb _); [discriminate|]. destruct fixed; [discriminate|].
    intros [= _ <-]. rewrite !len_cons. lia.
  - destruct (negb _); [discriminate|]. destruct (isDigitByte c1).
    + intros [= _ <-]. rewrite !len_cons. destruct fixed; lia.
    + destruct fixed; [discriminate|]. intros [= _ <-]. rewrite !len_cons. lia.
Qed.

Lemma parseElem_width (s : std) (value : string) (f : fields) :
  bad (parseElem s value f) = false ->
  fst (elemWidth s) <= len value - len (rest (parseElem s value f))
  <= snd (elemWidth s).
Proof.
  destruct s; cbn [parseElem elemWidth fst snd];
    try (destruct (getnum value _) as [[n value']|] eqn:E; [|discriminate];
         intros _; cbn [rest]; apply getnum_width in E; lia).
  - destruct (len value <? 4) eqn:El; [discriminate|]. cbn [orb].
    destruct (negb _); [discriminate|]. apply Z.ltb_ge in El.
    destruct (atoi _); [|discriminate]. intros _. cbn [rest].
    rewrite len_sliceFrom by (change (Z.of_nat 4) with 4; lia).
    change (Z.of_nat 4) with 4. lia.
  - destruct (len value <? Z.of_nat (S digits)) eqn:El; [discriminate|].
    apply Z.ltb_ge in El.
    destruct (parseNanoseconds _ _) as [[ns r] e]. intros _. cbn [rest].
    rewrite len_sliceFrom by lia. lia.
  - intros H. destruct (parseNumTZ_accepts value f H)
      as (sg & a & b & c & d & E & _).
    apply (f_equal len) in E. rewrite !len_cons in E. lia.
Qed.

Lemma skip_width (pref : string) :
  forall value value1 : string,
    skip value pref = (value1, false) -> len value = len pref + len value1.
Proof.
  induction pref as [|p pref IH]; intros value value1; cbn [skip].
  - intros [= <-]. reflexivity.
  - destruct value as [|v value]; [discriminate|].
    destruct (Ascii.eqb v p); [|discriminate].
    intros H. rewrite !len_cons, (IH _ _ H). lia.
Qed.

Lemma parseChunks_width (chunks : list (string * std * string)) :
  forall (value value1 : string) (f f1 : fields),
    parseChunks chunks value f = inl (value1, f1) ->
    fst (chunksWidth chunks) <= len value - len value1 <= snd (chunksWidth chunks).
Proof.
  induction chunks as [|[[pref s] stdstr] chunks IH]; intros value value1 f f1;
    cbn [parseChunks chunksWidth fst snd].
  - intros [= <- _]. lia.
  - destruct (skip value pref) as [v [|]] eqn:Es; [discriminate|].
    destruct (negb _); [discriminate|].
    destruct (bad (parseElem s v f)) eqn:Eb; [discriminate|].
    intros H. apply IH in H. apply skip_width in Es.
    pose proof (parseElem_width s v f Eb). lia.
Qed.

Lemma Parse_accepts_quoted (localOffset : Z -> Z) (value : string) (t : Time) :
  Parse localOffset value = Ok t -> exists body, value = String dquote body.
Proof.
  unfold Parse, layoutChunks, dateTimeChunks. cbn [app parseChunks skip].
  destruct value as [|v value]; [discriminate|].
  destruct (Ascii.eqb_spec v dquote) as [->|]; [eauto|discriminate].
Qed.

Lemma Parse_accepts_len (localOffset : Z -> Z) (value : string) (t : Time) :
  Parse localOffset value = Ok t -> 29 <= len value <= 30.
Proof.
  unfold Parse.
  destruct (parseChunks layoutChunks value initFields) as [[v f]|[[? ?] ?]] eqn:E;
    [|discriminate].
  destruct (parseTail v) as [v2|[[? ?] ?]] eqn:Et; [|discriminate].
  intros _. apply parseTail_accepts in Et. subst v.
  apply parseChunks_width in E. revert E.
  change (len (String dquote "")) with 1.
  change (fst (chunksWidth layoutChunks)) with 28.
  change (snd (chunksWidth layoutChunks)) with 29. lia.
Qed.

(** X15: what is accepted.  An input on which [UnmarshalJSON] returns nil
    is the literal null, or a text of 29 or 30 bytes that opens with the
    quote and ends in a sign byte, four bytes of which the last three are
    decimal digits, and the quote: nothing shorter and nothing longer is
    read as a time. *)
Theorem UnmarshalJSON_accepts_only :
  forall (localOffset : Z -> Z) (t : SalesforceTime) (b : string),
    snd (UnmarshalJSON localOffset t b) = None ->
    b = "null" \/
    (29 <= len b <= 30 /\
     (exists body, b = String dquote body) /\
     exists p sg z1 z2 z3 z4,
       b = p ++ String sg (String z1 (String z2 (String z3 (String z4
                  (String dquote ""))))) /\
       isDigitByte z2 = true /\ isDigitByte z3 = true /\ isDigitByte z4 = true).
Proof.
  intros lo t b H.
  destruct (UnmarshalJSON_cases lo t b) as [[Hb _]|[[_ [e [_ He]]]|[_ [t' [Hp _]]]]].
  - now left.
  - rewrite He in H. discriminate.
  - right. split; [eapply Parse_accepts_len, Hp|].
    split; [eapply Parse_accepts_quoted, Hp|].
    eapply Parse_accepts, Hp.
Qed.

Lemma UnmarshalJSON_accepts_only_witness :
  wireExample = "null" \/
  (29 <= len wireExample <= 30 /\
   (exists body, wireExample = String dquote body) /\
   exists p sg z1 z2 z3 z4,
     wireExample = p ++ String sg (String z1 (String z2 (String z3 (String z4
                          (String dquote ""))))) /\
     isDigitByte z2 = true /\ isDigitByte z3 = true /\ isDigitByte z4 = true).
Proof.
  apply (UnmarshalJSON_accepts_only (fun _ => 0) (mkSalesforceTime zeroTime) wireExample).
  reflexivity.
Defined.

(** ** Time codec: one instant, two offsets *)

(** X16: the offset is taken off.  Two wire forms of the same day whose
    times of day differ by exactly the zone offset of the first decode to
    the same instant: a time at [+hhmm] is that time less hh hours and mm
    minutes at [+0000]. *)
Theorem UnmarshalJSON_offset_normalised :
  forall (localOffset : Z -> Z) (t1 t2 : SalesforceTime)
         (y mo d h mi s ms : Z) (neg : bool) (zh zm h' mi' : Z),
    validDateTime y mo d h mi s ms ->
    validOffset zh zm ->
    validDateTime y mo d h' mi' s ms ->
    (h' * 60 + mi') * 60 = (h * 60 + mi) * 60 - zoneSeconds neg zh zm ->
    Equal
      (Time_ (fst (UnmarshalJSON localOffset t1 (wireTime y mo d h mi s ms neg zh zm))))
      (Time_ (fst (UnmarshalJSON localOffset t2 (wireTime y mo d h' mi' s ms false 0 0))))
    = true.
Proof.
  intros lo t1 t2 y mo d h mi s ms neg zh zm h' mi' Hv Hz Hv' Heq.
  destruct (Parse_wireTime lo y mo d h mi s ms neg zh zm Hv Hz) as [l1 H1].
  destruct (Parse_wireTime lo y mo d h' mi' s ms false 0 0 Hv') as [l2 H2];
    [unfold validOffset; lia|].
  unfold UnmarshalJSON, wireTime. rewrite !wire_not_null.
  fold (wireTime y mo d h mi s ms neg zh zm).
  fold (wireTime y mo d h' mi' s ms false 0 0). rewrite H1, H2.
  destruct Hv as (_ & Hmo & _ & Hh & Hmi & Hs & Hms).
  destruct Hv' as (_ & _ & _ & Hh' & Hmi' & _).
  rewrite !Date_in_range by lia.
  unfold Equal, setLoc, addSec. cbn [fst Time_ ext wall].
  rewrite Z.eqb_refl, andb_true_r. apply Z.eqb_eq.
  change (zoneSeconds false 0 0) with 0.
  unfold secondsPerHour, secondsPerMinute in *. lia.
Qed.

Lemma UnmarshalJSON_offset_normalised_witness :
  Equal
    (Time_ (fst (UnmarshalJSON (fun _ => 0) someTime
                   (String dquote ("2023-12-02T03:15:02.000+0045" ++ String dquote "")))))
    (Time_ (fst (UnmarshalJSON (fun _ => 0) (mkSalesforceTime zeroTime) wireExample)))
  = true.
Proof.
  apply (UnmarshalJSON_offset_normalised (fun _ => 0) someTime (mkSalesforceTime zeroTime)
           2023 12 2 3 15 2 0 false 0 45 2 30).
  - unfold validDateTime. change (daysIn 12 2023) with 31. lia.
  - unfold validOffset. lia.
  - unfold validDateTime. change (daysIn 12 2023) with 31. lia.
  - reflexivity.
Defined.
